(** * Leaflet.SmoothWheelZoom: a shallow embedding of [src/SmoothWheelZoom.js]

    The handler [L.Map.SmoothWheelZoom] is embedded method by method.
    JavaScript numbers are IEEE 754 binary64 values, so they are modelled by
    Rocq's primitive floats, whose operations are the very same ones
    (round to nearest, ties to even; [NaN], infinities and signed zeros
    included).  Leaflet's map object and [L.DomEvent] are not part of the
    sources: they are an interface ([Host]); the two methods of [L.Point]
    the handler uses are written out.  The browser's scheduler
    ([requestAnimationFrame], [setTimeout]) is a small explicit state
    ([Window]), and every call the handler makes on the map is logged. *)

From Stdlib Require Import Floats ZArith List Bool String Lia PeanoNat.
Import ListNotations.

Set Warnings "-inexact-float".
Local Open Scope float_scope.

(** ** JavaScript numbers *)

Module JS.

(** A field of an event object as the handler reads it: absent
    ([undefined]), [null], or a number. *)
Inductive value :=
| Undefined
| Null
| Num (f : float).

(** [ToNumber]: what an arithmetic operator makes of its operand. *)
Definition toNumber (v : value) : float :=
  match v with
  | Undefined => nan
  | Null => 0
  | Num f => f
  end.

(** [v === k] for a numeric literal [k]. *)
Definition strictEqNum (v : value) (k : float) : bool :=
  match v with
  | Num f => f =? k
  | _ => false
  end.

(** [a !== b] on numbers. *)
Definition strictNeq (a b : float) : bool := negb (a =? b).

(** A non-negative integer below [2^63] as a float (exact below [2^53]). *)
Definition of_Z (z : Z) : float := of_uint63 (Uint63.of_Z z).

(** [Math.floor]: the largest integral value not above the argument; [NaN],
    the infinities and the zeros are returned as they are.  A finite binary64
    value is [(-1)^s * m * 2^e] with [m < 2^53]; when [e >= 0] it is already
    integral. *)
Definition Math_floor (x : float) : float :=
  match Prim2SF x with
  | S754_finite s m e =>
      if (0 <=? e)%Z then x
      else
        let q := Z.shiftr (Z.pos m) (- e) in
        let exact := Z.eqb (Z.shiftl q (- e)) (Z.pos m) in
        if s then - of_Z (if exact then q else q + 1)
        else of_Z q
  | _ => x
  end.

Definition Math_abs (x : float) : float := abs x.

(** [Math.trunc]: the integral part, digits after the point dropped. *)
Definition Math_trunc (x : float) : float :=
  if x <? 0 then - Math_floor (- x) else Math_floor x.

End JS.

(** ** Data *)

(** [L.Point]: a pixel position, with the two methods the handler uses. *)
Record Point := mkPoint { x : float; y : float }.

Definition subtract (p q : Point) : Point :=
  {| x := x p - x q; y := y p - y q |}.

Definition divideBy (p : Point) (n : float) : Point :=
  {| x := x p / n; y := y p / n |}.

(** [L.LatLng]: a geographic position. *)
Record LatLng := mkLatLng { lat : float; lng : float }.

(** The fields of a native wheel event that the handler reads. *)
Record WheelEvent := mkWheelEvent {
  deltaY : JS.value;
  deltaMode : JS.value;
  clientX : JS.value;
  clientY : JS.value
}.

(** [map.options.smoothWheelZoom]: [true | false | 'center']. *)
Inductive smoothWheelZoomOption := OptTrue | OptFalse | OptCenter.

(** [L.Map.mergeOptions({ smoothWheelZoom: true, smoothSensitivity: 1 })] *)
Definition default_smoothWheelZoom : smoothWheelZoomOption := OptTrue.
Definition default_smoothSensitivity : float := 1.

(** What the handler does to the outside: calls of the map's mutating
    methods and the suppression of the event, in the order it makes them. *)
Inductive Effect :=
| Call_stop
| Call_panAnim_stop
| Call_moveStart (zoomChanged noMoveStart : bool)
| Call_move (center : LatLng) (zoom : float)
| Call_moveEnd (zoomChanged : bool)
| PreventDefault
| StopPropagation.

(** A commit is a call of [map._move]. *)
Definition is_commit (e : Effect) : bool :=
  match e with Call_move _ _ => true | _ => false end.

(** A write to the view is a call of any of the map's mutating methods. *)
Definition is_view_write (e : Effect) : bool :=
  match e with PreventDefault | StopPropagation => false | _ => true end.

(** ** The host: Leaflet's map object and helpers

    The sources only call these; their code is Leaflet's.  [M] is the state
    of a map object.  [DomEvent_getWheelDelta] and
    [mouseEventToContainerPoint] are the two functions the handler probes
    for ([None] when the host lacks them, as the sources say of Leaflet
    2.x). *)
Class Host (M : Type) := {
  getZoom : M -> float;
  getCenter : M -> LatLng;
  getMinZoom : M -> float;
  getMaxZoom : M -> float;
  _limitZoom : M -> float -> float;
  getSize : M -> Point;
  containerPointToLatLng : M -> Point -> LatLng;
  project : M -> LatLng -> float -> Point;
  unproject : M -> Point -> float -> LatLng;
  options_smoothWheelZoom : M -> smoothWheelZoomOption;
  options_smoothSensitivity : M -> float;
  _panAnim : M -> bool;
  stop : M -> M;
  _panAnim_stop : M -> M;
  _moveStart : M -> bool -> bool -> M;
  _move : M -> LatLng -> float -> M;
  _moveEnd : M -> bool -> M;
  LatLng_equals : LatLng -> LatLng -> bool;
  DomEvent_getWheelDelta : option (WheelEvent -> float);
  mouseEventToContainerPoint : option (M -> WheelEvent -> Point);
  rect_left : M -> float;
  rect_top : M -> float;
  clientLeft : M -> float;
  clientTop : M -> float;
  navigator_platform : string
}.

(** ** The browser's scheduler

    Pending animation-frame callbacks and pending timers of the page, by
    handle.  Every callback the handler registers is its own
    [_updateWheelZoom] (frames) or [_onWheelEnd] (timers), so a handle is all
    there is to store; a timer keeps its delay in milliseconds. *)
Record Window := mkWindow {
  wheelListener : bool;
  frames : list nat;
  timers : list (nat * nat);
  nextHandle : nat
}.

(** ** The handler object: the fields of [this] *)
Record Handler := mkHandler {
  _enabled : bool;
  _isWheeling : bool;
  _wheelMousePosition : Point;
  _centerPoint : Point;
  _startLatLng : LatLng;
  _wheelStartLatLng : LatLng;
  _startZoom : float;
  _moved : bool;
  _zooming : bool;
  _goalZoom : float;
  _prevCenter : LatLng;
  _prevZoom : float;
  _zoomAnimationId : option nat;
  _timeoutId : option nat;
  _zoom : float;
  _center : LatLng
}.

(** Assignments [this.f = v], one per field. *)

Definition set_enabled v (h : Handler) : Handler :=
  mkHandler v (_isWheeling h) (_wheelMousePosition h) (_centerPoint h)
    (_startLatLng h) (_wheelStartLatLng h) (_startZoom h) (_moved h)
    (_zooming h) (_goalZoom h) (_prevCenter h) (_prevZoom h)
    (_zoomAnimationId h) (_timeoutId h) (_zoom h) (_center h).

Definition set_isWheeling v (h : Handler) : Handler :=
  mkHandler (_enabled h) v (_wheelMousePosition h) (_centerPoint h)
    (_startLatLng h) (_wheelStartLatLng h) (_startZoom h) (_moved h)
    (_zooming h) (_goalZoom h) (_prevCenter h) (_prevZoom h)
    (_zoomAnimationId h) (_timeoutId h) (_zoom h) (_center h).

Definition set_wheelMousePosition v (h : Handler) : Handler :=
  mkHandler (_enabled h) (_isWheeling h) v (_centerPoint h) (_startLatLng h)
    (_wheelStartLatLng h) (_startZoom h) (_moved h) (_zooming h)
    (_goalZoom h) (_prevCenter h) (_prevZoom h) (_zoomAnimationId h)
    (_timeoutId h) (_zoom h) (_center h).

Definition set_centerPoint v (h : Handler) : Handler :=
  mkHandler (_enabled h) (_isWheeling h) (_wheelMousePosition h) v
    (_startLatLng h) (_wheelStartLatLng h) (_startZoom h) (_moved h)
    (_zooming h) (_goalZoom h) (_prevCenter h) (_prevZoom h)
    (_zoomAnimationId h) (_timeoutId h) (_zoom h) (_center h).

Definition set_startLatLng v (h : Handler) : Handler :=
  mkHandler (_enabled h) (_isWheeling h) (_wheelMousePosition h)
    (_centerPoint h) v (_wheelStartLatLng h) (_startZoom h) (_moved h)
    (_zooming h) (_goalZoom h) (_prevCenter h) (_prevZoom h)
    (_zoomAnimationId h) (_timeoutId h) (_zoom h) (_center h).

Definition set_wheelStartLatLng v (h : Handler) : Handler :=
  mkHandler (_enabled h) (_isWheeling h) (_wheelMousePosition h)
    (_centerPoint h) (_startLatLng h) v (_startZoom h) (_moved h)
    (_zooming h) (_goalZoom h) (_prevCenter h) (_prevZoom h)
    (_zoomAnimationId h) (_timeoutId h) (_zoom h) (_center h).

Definition set_startZoom v (h : Handler) : Handler :=
  mkHandler (_enabled h) (_isWheeling h) (_wheelMousePosition h)
    (_centerPoint h) (_startLatLng h) (_wheelStartLatLng h) v (_moved h)
    (_zooming h) (_goalZoom h) (_prevCenter h) (_prevZoom h)
    (_zoomAnimationId h) (_timeoutId h) (_zoom h) (_center h).

Definition set_moved v (h : Handler) : Handler :=
  mkHandler (_enabled h) (_isWheeling h) (_wheelMousePosition h)
    (_centerPoint h) (_startLatLng h) (_wheelStartLatLng h) (_startZoom h) v
    (_zooming h) (_goalZoom h) (_prevCenter h) (_prevZoom h)
    (_zoomAnimationId h) (_timeoutId h) (_zoom h) (_center h).

Definition set_zooming v (h : Handler) : Handler :=
  mkHandler (_enabled h) (_isWheeling h) (_wheelMousePosition h)
    (_centerPoint h) (_startLatLng h) (_wheelStartLatLng h) (_startZoom h)
    (_moved h) v (_goalZoom h) (_prevCenter h) (_prevZoom h)
    (_zoomAnimationId h) (_timeoutId h) (_zoom h) (_center h).

Definition set_goalZoom v (h : Handler) : Handler :=
  mkHandler (_enabled h) (_isWheeling h) (_wheelMousePosition h)
    (_centerPoint h) (_startLatLng h) (_wheelStartLatLng h) (_startZoom h)
    (_moved h) (_zooming h) v (_prevCenter h) (_prevZoom h)
    (_zoomAnimationId h) (_timeoutId h) (_zoom h) (_center h).

Definition set_prevCenter v (h : Handler) : Handler :=
  mkHandler (_enabled h) (_isWheeling h) (_wheelMousePosition h)
    (_centerPoint h) (_startLatLng h) (_wheelStartLatLng h) (_startZoom h)
    (_moved h) (_zooming h) (_goalZoom h) v (_prevZoom h)
    (_zoomAnimationId h) (_timeoutId h) (_zoom h) (_center h).

Definition set_prevZoom v (h : Handler) : Handler :=
  mkHandler (_enabled h) (_isWheeling h) (_wheelMousePosition h)
    (_centerPoint h) (_startLatLng h) (_wheelStartLatLng h) (_startZoom h)
    (_moved h) (_zooming h) (_goalZoom h) (_prevCenter h) v
    (_zoomAnimationId h) (_timeoutId h) (_zoom h) (_center h).

Definition set_zoomAnimationId v (h : Handler) : Handler :=
  mkHandler (_enabled h) (_isWheeling h) (_wheelMousePosition h)
    (_centerPoint h) (_startLatLng h) (_wheelStartLatLng h) (_startZoom h)
    (_moved h) (_zooming h) (_goalZoom h) (_prevCenter h) (_prevZoom h) v
    (_timeoutId h) (_zoom h) (_center h).

Definition set_timeoutId v (h : Handler) : Handler :=
  mkHandler (_enabled h) (_isWheeling h) (_wheelMousePosition h)
    (_centerPoint h) (_startLatLng h) (_wheelStartLatLng h) (_startZoom h)
    (_moved h) (_zooming h) (_goalZoom h) (_prevCenter h) (_prevZoom h)
    (_zoomAnimationId h) v (_zoom h) (_center h).

Definition set_zoom v (h : Handler) : Handler :=
  mkHandler (_enabled h) (_isWheeling h) (_wheelMousePosition h)
    (_centerPoint h) (_startLatLng h) (_wheelStartLatLng h) (_startZoom h)
    (_moved h) (_zooming h) (_goalZoom h) (_prevCenter h) (_prevZoom h)
    (_zoomAnimationId h) (_timeoutId h) v (_center h).

Definition set_center v (h : Handler) : Handler :=
  mkHandler (_enabled h) (_isWheeling h) (_wheelMousePosition h)
    (_centerPoint h) (_startLatLng h) (_wheelStartLatLng h) (_startZoom h)
    (_moved h) (_zooming h) (_goalZoom h) (_prevCenter h) (_prevZoom h)
    (_zoomAnimationId h) (_timeoutId h) (_zoom h) v.

(** ** The world a method runs in

    The handler object, the map it is attached to, the browser's scheduler
    and the log of what the handler did to the outside. *)
Record World (M : Type) := mkWorld {
  w_this : Handler;
  w_map : M;
  w_win : Window;
  w_log : list Effect
}.

Arguments mkWorld {M}.
Arguments w_this {M}.
Arguments w_map {M}.
Arguments w_win {M}.
Arguments w_log {M}.

Section Methods.

Context {M : Type} {host : Host M}.

(** *** Primitive steps *)

(** [this.f = v] *)
Definition assign (f : Handler -> Handler) (w : World M) : World M :=
  mkWorld (f (w_this w)) (w_map w) (w_win w) (w_log w).

(** A call of one of the map's mutating methods. *)
Definition call (eff : Effect) (f : M -> M) (w : World M) : World M :=
  mkWorld (w_this w) (f (w_map w)) (w_win w) (w_log w ++ [eff]).

(** [L.DomEvent.preventDefault(e)], [L.DomEvent.stopPropagation(e)]. *)
Definition emit (eff : Effect) (w : World M) : World M :=
  mkWorld (w_this w) (w_map w) (w_win w) (w_log w ++ [eff]).

Definition with_win (f : Window -> Window) (w : World M) : World M :=
  mkWorld (w_this w) (w_map w) (f (w_win w)) (w_log w).

(** [requestAnimationFrame(cb)]: a fresh handle, the callback pending. *)
Definition requestAnimationFrame (w : World M) : nat * World M :=
  let id := nextHandle (w_win w) in
  (id, with_win (fun b => mkWindow (wheelListener b) (frames b ++ [id])
                            (timers b) (S id)) w).

(** [cancelAnimationFrame(id)]: the callback, if still pending, is dropped;
    [undefined] and handles of callbacks that already ran do nothing. *)
Definition cancelAnimationFrame (id : option nat) (w : World M) : World M :=
  match id with
  | None => w
  | Some i =>
      with_win (fun b => mkWindow (wheelListener b)
                           (remove Nat.eq_dec i (frames b))
                           (timers b) (nextHandle b)) w
  end.

(** [setTimeout(cb, ms)] *)
Definition setTimeout (ms : nat) (w : World M) : nat * World M :=
  let id := nextHandle (w_win w) in
  (id, with_win (fun b => mkWindow (wheelListener b) (frames b)
                            (timers b ++ [(id, ms)]) (S id)) w).

(** [clearTimeout(id)] *)
Definition clearTimeout (id : option nat) (w : World M) : World M :=
  match id with
  | None => w
  | Some i =>
      with_win (fun b => mkWindow (wheelListener b) (frames b)
                           (filter (fun t => negb (Nat.eqb (fst t) i)) (timers b))
                           (nextHandle b)) w
  end.

(** *** The methods of [L.Map.SmoothWheelZoom] *)

(** [addHooks]: [L.DomEvent.on(container, 'wheel', this._onWheelScroll)], on
    a handler whose listener is not attached, which is how [enable] calls
    it: the listener is then attached.  What a call on a handler whose
    listener is attached does (the function is bound anew and registered
    beside the old one) is the matter of [Listeners] below. *)
Definition addHooks (w : World M) : World M :=
  with_win (fun b => mkWindow true (frames b) (timers b) (nextHandle b)) w.

(** [removeHooks]: [L.DomEvent.off(container, 'wheel', this._onWheelScroll)],
    and nothing else. *)
Definition removeHooks (w : World M) : World M :=
  with_win (fun b => mkWindow false (frames b) (timers b) (nextHandle b)) w.

(** [_getWheelDelta(e)] *)
Definition _getWheelDelta (e : WheelEvent) : float :=
  match DomEvent_getWheelDelta with
  | Some getWheelDelta => getWheelDelta e
  | None =>
      let factor := if String.prefix "Mac" navigator_platform then 3 else 1 in
      if JS.strictEqNum (deltaMode e) 0 then
        (- JS.toNumber (deltaY e)) / (40 * factor)
      else if JS.strictEqNum (deltaMode e) 1 then
        (- JS.toNumber (deltaY e)) * (4 / factor)
      else
        - JS.toNumber (deltaY e)
  end.

(** [_mouseEventToContainerPoint(e)], on [this._map].  [new L.Point] is the
    host's: it is taken here on coordinates that are numbers, as a native
    wheel event carries them; what the host's constructor makes of a
    missing [clientX] or [clientY] is not modelled. *)
Definition _mouseEventToContainerPoint (e : WheelEvent) (map : M) : Point :=
  match mouseEventToContainerPoint with
  | Some f => f map e
  | None =>
      mkPoint (JS.toNumber (clientX e) - rect_left map - clientLeft map)
              (JS.toNumber (clientY e) - rect_top map - clientTop map)
  end.

(** [_onWheelStart(e)] *)
Definition _onWheelStart (e : WheelEvent) (w : World M) : World M :=
  let w := assign (set_isWheeling true) w in
  let w := assign (set_wheelMousePosition (_mouseEventToContainerPoint e (w_map w))) w in
  let w := assign (set_centerPoint (divideBy (getSize (w_map w)) 2)) w in
  let w := assign (fun h => set_startLatLng
             (containerPointToLatLng (w_map w) (_centerPoint h)) h) w in
  let w := assign (fun h => set_wheelStartLatLng
             (containerPointToLatLng (w_map w) (_wheelMousePosition h)) h) w in
  let w := assign (set_startZoom (getZoom (w_map w))) w in
  let w := assign (set_moved false) w in
  let w := assign (set_zooming true) w in
  let w := call Call_stop stop w in
  let w := if _panAnim (w_map w) then call Call_panAnim_stop _panAnim_stop w
           else w in
  let w := assign (set_goalZoom (getZoom (w_map w))) w in
  let w := assign (set_prevCenter (getCenter (w_map w))) w in
  let w := assign (set_prevZoom (getZoom (w_map w))) w in
  let '(id, w) := requestAnimationFrame w in
  assign (set_zoomAnimationId (Some id)) w.

(** The accumulation step of [_onWheeling]:
    [this._goalZoom + this._getWheelDelta(e) * 0.003 * map.options.smoothSensitivity] *)
Definition accumulate (goalZoom delta smoothSensitivity : float) : float :=
  goalZoom + delta * 0.003 * smoothSensitivity.

(** The guard of the clamp:
    [this._goalZoom < map.getMinZoom() || this._goalZoom > map.getMaxZoom()] *)
Definition out_of_range (map : M) (z : float) : bool :=
  (z <? getMinZoom map) || (getMaxZoom map <? z).

(** [_onWheeling(e)] *)
Definition _onWheeling (e : WheelEvent) (w : World M) : World M :=
  let map := w_map w in
  let w := assign (fun h => set_goalZoom
             (accumulate (_goalZoom h) (_getWheelDelta e)
                         (options_smoothSensitivity map)) h) w in
  let w := if out_of_range map (_goalZoom (w_this w)) then
             assign (fun h => set_goalZoom (_limitZoom map (_goalZoom h)) h) w
           else w in
  let w := assign (set_wheelMousePosition (_mouseEventToContainerPoint e (w_map w))) w in
  let w := clearTimeout (_timeoutId (w_this w)) w in
  let '(id, w) := setTimeout 200 w in
  let w := assign (set_timeoutId (Some id)) w in
  let w := emit PreventDefault w in
  emit StopPropagation w.

(** [_onWheelScroll(e)] *)
Definition _onWheelScroll (e : WheelEvent) (w : World M) : World M :=
  let w := if negb (_isWheeling (w_this w)) then _onWheelStart e w else w in
  _onWheeling e w.

(** [_onWheelEnd()] *)
Definition _onWheelEnd (w : World M) : World M :=
  assign (set_isWheeling false) w.

(** The test that opens [_updateWheelZoom]:
    [!map.getCenter().equals(this._prevCenter) || map.getZoom() !== this._prevZoom] *)
Definition interfered (w : World M) : bool :=
  negb (LatLng_equals (getCenter (w_map w)) (_prevCenter (w_this w)))
  || JS.strictNeq (getZoom (w_map w)) (_prevZoom (w_this w)).

(** [zoomDiff = this._goalZoom - map.getZoom()] *)
Definition zoomDiff (w : World M) : float :=
  _goalZoom (w_this w) - getZoom (w_map w).

(** The stop condition: [Math.abs(zoomDiff) < 0.005 && !this._isWheeling] *)
Definition converged (w : World M) : bool :=
  (JS.Math_abs (zoomDiff w) <? 0.005) && negb (_isWheeling (w_this w)).

(** The eased zoom of a frame:
    [map.getZoom() + zoomDiff * 0.3], then [Math.floor(z * 100) / 100]. *)
Definition easedZoom (currentZoom goalZoom : float) : float :=
  JS.Math_floor ((currentZoom + (goalZoom - currentZoom) * 0.3) * 100) / 100.

(** [delta = this._wheelMousePosition.subtract(this._centerPoint)] *)
Definition cursorOffset (w : World M) : Point :=
  subtract (_wheelMousePosition (w_this w)) (_centerPoint (w_this w)).

(** [delta.x === 0 && delta.y === 0] *)
Definition dead_center (w : World M) : bool :=
  (x (cursorOffset w) =? 0) && (y (cursorOffset w) =? 0).

(** [_updateWheelZoom()]: one animation frame of the driver. *)
Definition _updateWheelZoom (w : World M) : World M :=
  let map := w_map w in
  if interfered w then
    cancelAnimationFrame (_zoomAnimationId (w_this w)) w
  else
    let zoomDiff := _goalZoom (w_this w) - getZoom map in
    if (JS.Math_abs zoomDiff <? 0.005) && negb (_isWheeling (w_this w)) then
      let w := cancelAnimationFrame (_zoomAnimationId (w_this w)) w in
      if _moved (w_this w) then
        let w := call (Call_moveEnd true) (fun m => _moveEnd m true) w in
        assign (set_moved false) w
      else w
    else
      let w := assign (set_zoom (getZoom map + zoomDiff * 0.3)) w in
      let w := assign (fun h => set_zoom
                 (JS.Math_floor (_zoom h * 100) / 100) h) w in
      let delta := subtract (_wheelMousePosition (w_this w))
                            (_centerPoint (w_this w)) in
      if (x delta =? 0) && (y delta =? 0) then
        let '(id, w) := requestAnimationFrame w in
        assign (set_zoomAnimationId (Some id)) w
      else
        let w :=
          match options_smoothWheelZoom map with
          | OptCenter => assign (fun h => set_center (_startLatLng h) h) w
          | _ => assign (fun h => set_center
                   (unproject map
                      (subtract (project map (_wheelStartLatLng h) (_zoom h)) delta)
                      (_zoom h)) h) w
          end in
        let w := if negb (_moved (w_this w)) then
                   let w := call (Call_moveStart true false)
                                 (fun m => _moveStart m true false) w in
                   assign (set_moved true) w
                 else w in
        let w := call (Call_move (_center (w_this w)) (_zoom (w_this w)))
                      (fun m => _move m (_center (w_this w)) (_zoom (w_this w))) w in
        let w := assign (set_prevCenter (getCenter (w_map w))) w in
        let w := assign (set_prevZoom (getZoom (w_map w))) w in
        let '(id, w) := requestAnimationFrame w in
        assign (set_zoomAnimationId (Some id)) w.

End Methods.

(** ** The page: what makes the handler's callbacks run *)

Section Page.

Context {M : Type} {host : Host M}.

(** Modelled from the spec: [enable()] and [disable()] are inherited from the
    host's [L.Handler], which is not part of the sources; "enabling an
    already-enabled handler, disabling an idle one must be no-ops", and
    otherwise they attach or detach the wheel listener through [addHooks] and
    [removeHooks]. *)
Definition enable (w : World M) : World M :=
  if _enabled (w_this w) then w
  else addHooks (assign (set_enabled true) w).

Definition disable (w : World M) : World M :=
  if negb (_enabled (w_this w)) then w
  else removeHooks (assign (set_enabled false) w).

(** A native wheel event on the container reaches [_onWheelScroll] when the
    listener is attached. *)
Definition dispatchWheel (e : WheelEvent) (w : World M) : World M :=
  if wheelListener (w_win w) then _onWheelScroll e w else w.

Definition timer_pending (id : nat) (b : Window) : bool :=
  existsb (fun t => Nat.eqb (fst t) id) (timers b).

Definition frame_pending (id : nat) (b : Window) : bool :=
  existsb (Nat.eqb id) (frames b).

(** A pending timer expires: it leaves the list and [_onWheelEnd] runs. *)
Definition fireTimer (id : nat) (w : World M) : World M :=
  if timer_pending id (w_win w) then _onWheelEnd (clearTimeout (Some id) w)
  else w.

(** A pending frame callback is run: it leaves the list and
    [_updateWheelZoom] runs. *)
Definition runFrameCallback (id : nat) (w : World M) : World M :=
  if frame_pending id (w_win w) then
    _updateWheelZoom (cancelAnimationFrame (Some id) w)
  else w.

(** One display refresh: the callbacks pending at its start run in the order
    they were requested, except those cancelled in the meantime; callbacks
    requested during the refresh wait for the next one. *)
Definition animationFrame (w : World M) : World M :=
  fold_left (fun w id => runFrameCallback id w) (frames (w_win w)) w.

(** What can happen to a page, one event at a time. *)
Inductive Input :=
| Wheel (e : WheelEvent)
| TimerExpires (id : nat)
| Frame
| External (f : M -> M)
| Enable
| Disable.

Definition step (w : World M) (i : Input) : World M :=
  match i with
  | Wheel e => dispatchWheel e w
  | TimerExpires id => fireTimer id w
  | Frame => animationFrame w
  | External f => mkWorld (w_this w) (f (w_map w)) (w_win w) (w_log w)
  | Enable => enable w
  | Disable => disable w
  end.

Definition run (inputs : list Input) (w : World M) : World M :=
  fold_left step inputs w.

(** The debounce timer that is armed, if any, expires. *)
Definition gestureEnds (w : World M) : World M :=
  match _timeoutId (w_this w) with
  | Some id => fireTimer id w
  | None => w
  end.

(** [n] display refreshes in a row, nothing else happening. *)
Fixpoint ticks (n : nat) (w : World M) : World M :=
  match n with
  | O => w
  | S k => ticks k (animationFrame w)
  end.

(** The animation loop is running: a frame callback is pending. *)
Definition loop_running (w : World M) : bool :=
  match frames (w_win w) with [] => false | _ => true end.

(** The initial state of a handler on a map, before [enable()].  Its fields
    are [undefined] until [_onWheelStart] or [_updateWheelZoom] assigns them,
    and none is read before ([_isWheeling] and [_timeoutId] apart, read as
    falsy and as no handle): the values here stand for "not yet set". *)
Definition idleHandler : Handler :=
  mkHandler false false (mkPoint 0 0) (mkPoint 0 0) (mkLatLng 0 0)
    (mkLatLng 0 0) 0 false false 0 (mkLatLng 0 0) 0 None None 0 (mkLatLng 0 0).

Definition freshWorld (map : M) : World M :=
  mkWorld idleHandler map (mkWindow false [] [] 1) [].

(** The inputs under which nothing but the handler's own callbacks runs:
    display refreshes and timer expiries (no wheel event, no other agent,
    no enabling or disabling). *)
Definition quiet (i : Input) : bool :=
  match i with
  | Frame | TimerExpires _ => true
  | _ => false
  end.

(** An input that starts a gesture: a wheel event that reaches a handler
    which is not wheeling. *)
Definition starts_gesture (w : World M) (i : Input) : bool :=
  match i with
  | Wheel _ => wheelListener (w_win w) && negb (_isWheeling (w_this w))
  | _ => false
  end.

(** Inputs that stay within the gesture under way, if any: display
    refreshes, timer expiries and wheel events, none of which starts a new
    gesture (no other agent, no enabling or disabling). *)
Fixpoint within_gesture (inputs : list Input) (w : World M) : bool :=
  match inputs with
  | [] => true
  | i :: rest =>
      match i with
      | Frame | TimerExpires _ => true
      | Wheel _ => negb (starts_gesture w i)
      | _ => false
      end && within_gesture rest (step w i)
  end.

End Page.

(** ** What the methods leave behind

    The worlds the methods lead to, written out field by field; the
    theorems below relate them to the methods. *)

Section Outcomes.

Context {M : Type} {host : Host M}.

(** The zoom a frame eases to, from the view's zoom and the goal. *)
Definition nextZoom (w : World M) : float :=
  easedZoom (getZoom (w_map w)) (_goalZoom (w_this w)).

(** The centre a frame resolves for that zoom. *)
Definition anchorCenter (w : World M) : LatLng :=
  match options_smoothWheelZoom (w_map w) with
  | OptCenter => _startLatLng (w_this w)
  | _ =>
      unproject (w_map w)
        (subtract (project (w_map w) (_wheelStartLatLng (w_this w)) (nextZoom w))
                  (cursorOffset w))
        (nextZoom w)
  end.

(** The calls a committing frame makes on the map. *)
Definition commitCalls (w : World M) : list Effect :=
  (if _moved (w_this w) then [] else [Call_moveStart true false])
  ++ [Call_move (anchorCenter w) (nextZoom w)].

(** The map after those calls. *)
Definition committedMap (w : World M) : M :=
  _move (if _moved (w_this w) then w_map w else _moveStart (w_map w) true false)
        (anchorCenter w) (nextZoom w).

(** The scheduler after [requestAnimationFrame]. *)
Definition requested (b : Window) : Window :=
  mkWindow (wheelListener b) (frames b ++ [nextHandle b]) (timers b)
           (S (nextHandle b)).

(** The handler after a frame that skipped the view update. *)
Definition skippedHandler (w : World M) : Handler :=
  let h := w_this w in
  mkHandler (_enabled h) (_isWheeling h) (_wheelMousePosition h)
    (_centerPoint h) (_startLatLng h) (_wheelStartLatLng h) (_startZoom h)
    (_moved h) (_zooming h) (_goalZoom h) (_prevCenter h) (_prevZoom h)
    (Some (nextHandle (w_win w))) (_timeoutId h) (nextZoom w) (_center h).

(** The handler after a frame that moved the map. *)
Definition committedHandler (w : World M) : Handler :=
  let h := w_this w in
  mkHandler (_enabled h) (_isWheeling h) (_wheelMousePosition h)
    (_centerPoint h) (_startLatLng h) (_wheelStartLatLng h) (_startZoom h)
    true (_zooming h) (_goalZoom h)
    (getCenter (committedMap w)) (getZoom (committedMap w))
    (Some (nextHandle (w_win w))) (_timeoutId h) (nextZoom w) (anchorCenter w).

(** The goal after [_onWheeling]: the accumulation step, then the clamp when
    the sum is out of range. *)
Definition goalAfter (map : M) (goal : float) (e : WheelEvent) : float :=
  let sum := accumulate goal (_getWheelDelta e) (options_smoothSensitivity map) in
  if out_of_range map sum then _limitZoom map sum else sum.

(** The map after [map.stop()] and the stop of its pan animation. *)
Definition stoppedMap (map : M) : M :=
  if _panAnim (stop map) then _panAnim_stop (stop map) else stop map.

(** The world [_onWheelStart] leaves. *)
Definition gestureStarted (e : WheelEvent) (w : World M) : World M :=
  let map := w_map w in
  let h := w_this w in
  let cursor := _mouseEventToContainerPoint e map in
  let half := divideBy (getSize map) 2 in
  mkWorld
    (mkHandler (_enabled h) true cursor half
       (containerPointToLatLng map half) (containerPointToLatLng map cursor)
       (getZoom map) false true
       (getZoom (stoppedMap map)) (getCenter (stoppedMap map))
       (getZoom (stoppedMap map))
       (Some (nextHandle (w_win w))) (_timeoutId h) (_zoom h) (_center h))
    (stoppedMap map)
    (requested (w_win w))
    (w_log w ++ Call_stop ::
       (if _panAnim (stop map) then [Call_panAnim_stop] else [])).

(** The world [_onWheeling] leaves. *)
Definition wheeled (e : WheelEvent) (w : World M) : World M :=
  let map := w_map w in
  let h := w_this w in
  let id := nextHandle (w_win w) in
  mkWorld
    (mkHandler (_enabled h) (_isWheeling h) (_mouseEventToContainerPoint e map)
       (_centerPoint h) (_startLatLng h) (_wheelStartLatLng h) (_startZoom h)
       (_moved h) (_zooming h) (goalAfter map (_goalZoom h) e)
       (_prevCenter h) (_prevZoom h) (_zoomAnimationId h) (Some id)
       (_zoom h) (_center h))
    map
    (mkWindow (wheelListener (w_win w)) (frames (w_win w))
       (timers (w_win (clearTimeout (_timeoutId h) w)) ++ [(id, 200%nat)])
       (S id))
    (w_log w ++ [PreventDefault; StopPropagation]).

(** The world [_onWheeling] starts from when the event reaches the handler. *)
Definition onEntry (e : WheelEvent) (w : World M) : World M :=
  if negb (_isWheeling (w_this w)) then _onWheelStart e w else w.

(** What the tests of a frame read, with the map and the log. *)
Definition scene (w : World M) :=
  (w_map w, w_log w, _goalZoom (w_this w), _prevCenter (w_this w),
   _prevZoom (w_this w), _wheelMousePosition (w_this w),
   _centerPoint (w_this w)).

(** The anchors of a gesture: the view's centre pixel and the geographic
    points under it and under the cursor, as captured at gesture start. *)
Definition anchors (w : World M) :=
  (_centerPoint (w_this w), _startLatLng (w_this w),
   _wheelStartLatLng (w_this w)).

End Outcomes.
(** ** A small host to run the handler on

    A map whose [_move] stores what it is given, as Leaflet's does
    ([_zoom = zoom], [_lastCenter = center]), with the flat projection of
    [L.CRS.Simple] at a scale that is linear in the zoom, Leaflet's
    [LatLng.equals] (margin [1e-9]) and Leaflet's [_limitZoom] without
    snapping ([zoomSnap: 0]). *)
Module SimpleMap.

Record t := mk {
  zoom : float;
  center : LatLng;
  minZoom : float;
  maxZoom : float;
  size : Point;
  mode : smoothWheelZoomOption;
  sensitivity : float
}.

Definition scale (z : float) : float := 256 * (1 + z).

Definition Math_max (a b : float) : float :=
  if PrimFloat.is_nan a || PrimFloat.is_nan b then nan
  else if a <? b then b else a.

Definition Math_min (a b : float) : float :=
  if PrimFloat.is_nan a || PrimFloat.is_nan b then nan
  else if b <? a then b else a.

Definition project_ (ll : LatLng) (z : float) : Point :=
  mkPoint (lng ll * scale z) (- lat ll * scale z).

Definition unproject_ (p : Point) (z : float) : LatLng :=
  mkLatLng (- y p / scale z) (x p / scale z).

Definition containerPointToLatLng_ (m : t) (p : Point) : LatLng :=
  unproject_
    (mkPoint (x (project_ (center m) (zoom m)) - x (size m) / 2 + x p)
             (y (project_ (center m) (zoom m)) - y (size m) / 2 + y p))
    (zoom m).

Definition equals (a b : LatLng) : bool :=
  Math_max (abs (lat a - lat b)) (abs (lng a - lng b)) <=? 1e-9.

Definition move_ (m : t) (c : LatLng) (z : float) : t :=
  mk z c (minZoom m) (maxZoom m) (size m) (mode m) (sensitivity m).

Definition host (getWheelDelta : option (WheelEvent -> float))
                (platform : string) : Host t := {|
  getZoom := zoom;
  getCenter := center;
  getMinZoom := minZoom;
  getMaxZoom := maxZoom;
  _limitZoom := fun m z => Math_max (minZoom m) (Math_min (maxZoom m) z);
  getSize := size;
  containerPointToLatLng := containerPointToLatLng_;
  project := fun _ => project_;
  unproject := fun _ => unproject_;
  options_smoothWheelZoom := mode;
  options_smoothSensitivity := sensitivity;
  _panAnim := fun _ => false;
  stop := fun m => m;
  _panAnim_stop := fun m => m;
  _moveStart := fun m _ _ => m;
  _move := move_;
  _moveEnd := fun m _ => m;
  LatLng_equals := equals;
  DomEvent_getWheelDelta := getWheelDelta;
  mouseEventToContainerPoint := None;
  rect_left := fun _ => 0;
  rect_top := fun _ => 0;
  clientLeft := fun _ => 0;
  clientTop := fun _ => 0;
  navigator_platform := platform
|}.

(** The host without [L.DomEvent.getWheelDelta], off a Mac: the handler's
    own normalisation is used. *)
Definition plain : Host t := host None "Win32".

(** A host whose [L.DomEvent.getWheelDelta] is Leaflet 1.x's, on the fields
    modelled here: [0] unless [deltaY] is a non-zero number; pixels are
    divided by the wheel-pixel factor ([2] at device pixel ratio 1), lines
    count 20 and pages 60. *)
Definition leaflet1_getWheelDelta (e : WheelEvent) : float :=
  match deltaY e with
  | JS.Num d =>
      if (d =? 0) || PrimFloat.is_nan d then 0
      else if JS.strictEqNum (deltaMode e) 0 then (- d) / 2
      else if JS.strictEqNum (deltaMode e) 1 then (- d) * 20
      else if JS.strictEqNum (deltaMode e) 2 then (- d) * 60
      else 0
  | _ => 0
  end.

Definition leaflet1 : Host t := host (Some leaflet1_getWheelDelta) "Win32".

(** A map at zoom [z] centred on the origin, 800 by 600 pixels, zoom range
    [0..18], with the default options. *)
Definition at_zoom (z : float) : t :=
  mk z (mkLatLng 0 0) 0 18 (mkPoint 800 600)
     default_smoothWheelZoom default_smoothSensitivity.

(** A wheel event of normalised magnitude [+1] for [plain]
    ([deltaY = -40] pixels), with the cursor at [(cx, cy)]. *)
Definition notch_up (cx cy : float) : WheelEvent :=
  mkWheelEvent (JS.Num (-40)) (JS.Num 0) (JS.Num cx) (JS.Num cy).

End SimpleMap.

(** ** Scenarios on the small host *)

Module Scenario.

Import SimpleMap.

(** An enabled handler on a map at zoom 10, nothing pending. *)
Definition start : World t := enable (freshWorld (at_zoom 10)).

(** One notch up with the cursor 100 pixels right of the view centre. *)
Definition notch : WheelEvent := notch_up 500 300.

(** One notch down at the same place ([deltaY = 40] pixels). *)
Definition notch_down : WheelEvent :=
  mkWheelEvent (JS.Num 40) (JS.Num 0) (JS.Num 500) (JS.Num 300).

(** A wheel event that carries no delta at all. *)
Definition no_delta : WheelEvent :=
  mkWheelEvent JS.Undefined JS.Undefined (JS.Num 500) (JS.Num 300).

Definition wheel (n : nat) (e : WheelEvent) : list (Input (M := t)) :=
  repeat (Wheel e) n.

(** Ten notches down, then the debounce timer expires. *)
Definition zoomed_out : World t :=
  gestureEnds (run (host := plain) (wheel 10 notch_down) start).

(** A gesture under way: one notch with the cursor exactly at the centre of
    the 800 by 600 view, no frame run yet. *)
Definition centred : World t :=
  run (host := plain) [Wheel (notch_up 400 300)] start.

(** Ten notches at the centre, then the gesture ends: the goal is 0.03
    above the view's zoom. *)
Definition centred_far : World t :=
  gestureEnds (run (host := plain) (wheel 10 (notch_up 400 300)) start).

(** Another agent sets the view to zoom 12 after the first commit. *)
Definition intruded : World t :=
  run (host := plain)
      [Wheel notch; Frame; External (fun m => move_ m (mkLatLng 1 1) 12)] start.

(** A hundred notches in one event ([deltaY = -4000] pixels). *)
Definition big_notch : WheelEvent :=
  mkWheelEvent (JS.Num (-4000)) (JS.Num 0) (JS.Num 500) (JS.Num 300).

(** The same map with [smoothWheelZoom: 'center']. *)
Definition start_center_mode : World t :=
  enable (freshWorld (mk 10 (mkLatLng 0 0) 0 18 (mkPoint 800 600) OptCenter
                         default_smoothSensitivity)).

(** The pixel offset, at the zoom of a commit, between the projection of a
    geographic point and that of the committed centre. *)
Definition offsets_from (anchor : LatLng) (log : list Effect) : list Point :=
  flat_map (fun call =>
              match call with
              | Call_move c z => [subtract (project_ anchor z) (project_ c z)]
              | _ => []
              end) log.

(** One wheel event that drives the sum far past the upper bound, and one
    far past the lower bound. *)
Definition hard_up : WheelEvent :=
  mkWheelEvent (JS.Num (-4e9)) (JS.Num 0) (JS.Num 500) (JS.Num 300).

Definition hard_down : WheelEvent :=
  mkWheelEvent (JS.Num 4e9) (JS.Num 0) (JS.Num 500) (JS.Num 300).

End Scenario.

(** ** A gesture that never converges *)

Module Stuck.

Import SimpleMap.

(** Ten notches up from zoom 10, a display refresh after each, twelve more
    refreshes during the quiet period, then the debounce timer expires: the
    goal is [10.03] (to the last bit), the view is still at zoom 10. *)
Definition gesture : list (Input (M := t)) :=
  List.concat (repeat [Wheel Scenario.notch; Frame] 10) ++ repeat Frame 12.

Definition world : World t :=
  gestureEnds (run (host := plain) gesture Scenario.start).

(** What a frame reads and writes besides handles. *)
Definition core (w : World t) :=
  (w_map w, _goalZoom (w_this w), _prevCenter (w_this w), _prevZoom (w_this w),
   _wheelMousePosition (w_this w), _centerPoint (w_this w),
   _wheelStartLatLng (w_this w), _isWheeling (w_this w), _moved (w_this w)).

(** The state every frame after the gesture finds and leaves. *)
Definition steady (w : World t) : Prop := core w = core world.

(** A view at zoom [10.005] and one wheel event of magnitude [+2]: the goal
    is [10.011], so [zoomDiff] is [0.006] when the first frame runs. *)
Definition off_grid : World t :=
  run (host := plain)
      [Wheel (mkWheelEvent (JS.Num (-80)) (JS.Num 0) (JS.Num 500) (JS.Num 300))]
      (enable (freshWorld (at_zoom 10.005))).

End Stuck.

(** ** A view below zoom zero *)

Module BelowZero.

Import SimpleMap.

(** An enabled handler on a map at zoom 0 whose zoom range is [-5..18], as
    maps on [L.CRS.Simple] usually have it. *)
Definition start : World t :=
  enable (freshWorld (mk 0 (mkLatLng 0 0) (-5) 18 (mkPoint 800 600)
                         default_smoothWheelZoom default_smoothSensitivity)).

(** One notch down, no frame run yet: the goal is [-0.003]. *)
Definition gesture : World t :=
  run (host := plain) [Wheel Scenario.notch_down] start.

(** The zoom of every commit of a log. *)
Definition committed_zooms (log : list Effect) : list float :=
  flat_map (fun call => match call with Call_move _ z => [z] | _ => [] end) log.

End BelowZero.

(** ** Reading a run: the log, the scheduler, the snapshots *)

(** The suppression of a wheel event: [preventDefault], [stopPropagation]. *)
Definition is_suppression (e : Effect) : bool :=
  match e with PreventDefault | StopPropagation => true | _ => false end.

(** The move transactions of a log, read from a state [open] (a
    [_moveStart] not yet followed by [_moveEnd]): the state after the log,
    or [None] when a [_move] or a [_moveEnd] comes with no transaction
    open. *)
Fixpoint transaction (open : bool) (log : list Effect) : option bool :=
  match log with
  | [] => Some open
  | Call_moveStart _ _ :: rest => transaction true rest
  | Call_move _ _ :: rest => if open then transaction true rest else None
  | Call_moveEnd _ :: rest => if open then transaction false rest else None
  | _ :: rest => transaction open rest
  end.

Section Bookkeeping.

Context {M : Type} {host : Host M}.

(** The debounce timer and the flag it clears agree: no timer pending and
    not wheeling, or wheeling with one timer of 200 ms pending, the one whose
    handle the handler holds. *)
Definition debounce_ok (w : World M) : bool :=
  match timers (w_win w) with
  | [] => negb (_isWheeling (w_this w))
  | [(id, ms)] =>
      _isWheeling (w_this w)
      && match _timeoutId (w_this w) with
         | Some held => Nat.eqb held id
         | None => false
         end
      && Nat.eqb ms 200
  | _ => false
  end.

(** The number of gestures started along a run. *)
Fixpoint gesture_starts (inputs : list Input) (w : World M) : nat :=
  match inputs with
  | [] => O
  | i :: rest =>
      ((if starts_gesture w i then 1 else 0) + gesture_starts rest (step w i))%nat
  end.

Definition is_wheel (i : Input (M := M)) : bool :=
  match i with Wheel _ => true | _ => false end.

Definition is_frame (i : Input (M := M)) : bool :=
  match i with Frame => true | _ => false end.

Definition is_external (i : Input (M := M)) : bool :=
  match i with External _ => true | _ => false end.

Definition is_disable (i : Input (M := M)) : bool :=
  match i with Disable => true | _ => false end.

(** Every [_move] and [_moveEnd] of the log came within a transaction, and
    one is open when the handler holds [_moved]. *)
Definition transactions_ok (w : World M) : bool :=
  match transaction false (w_log w) with
  | Some open => implb (_moved (w_this w)) open
  | None => false
  end.

(** What the handler does to the event itself, per input, when the listener
    is attached. *)
Definition suppressions (i : Input (M := M)) : list Effect :=
  match i with
  | Wheel _ => [PreventDefault; StopPropagation]
  | _ => []
  end.

(** The snapshots are those of the view as it is:
    [_prevCenter] is [map.getCenter()] and [_prevZoom] is [map.getZoom()]. *)
Definition snapshot_current (w : World M) : Prop :=
  _prevCenter (w_this w) = getCenter (w_map w) /\
  _prevZoom (w_this w) = getZoom (w_map w).

(** The interference test of a view against itself:
    [!c.equals(c) || z !== z] for the centre and the zoom the map reports. *)
Definition self_interfered (map : M) : bool :=
  negb (LatLng_equals (getCenter map) (getCenter map))
  || JS.strictNeq (getZoom map) (getZoom map).

(** A host whose [map._moveEnd] reports the end of a move and leaves the
    zoom and the centre of the view as they are. *)
Definition moveEnd_keeps_view : Prop :=
  forall (m : M) (b : bool),
    getCenter (_moveEnd m b) = getCenter m /\ getZoom (_moveEnd m b) = getZoom m.

End Bookkeeping.

(** ** The listeners on the container

    [addHooks] replaces [this._onWheelScroll] by a new function, bound to
    the handler, and registers it; [removeHooks] unregisters the function
    that [this._onWheelScroll] then is.  [L.DomEvent.on] and [off] tell
    functions apart by identity: a number stands for each, [0] for the method
    of the prototype and [n] for the function the [n]-th [bind] made.  Each
    of them, when called, runs [_onWheelScroll] on the handler. *)

Module Listeners.

Record Registry := mkRegistry {
  bound : nat;          (* the function this._onWheelScroll is *)
  attached : list nat   (* the 'wheel' listeners of the container, oldest first *)
}.

(** A new handler: the method of the prototype, nothing registered. *)
Definition initial : Registry := mkRegistry 0 [].

(** [addHooks]:
    [this._onWheelScroll = this._onWheelScroll.bind(this);
     L.DomEvent.on(this._map._container, 'wheel', this._onWheelScroll, this)] *)
Definition addHooks (r : Registry) : Registry :=
  let f := S (bound r) in
  mkRegistry f (attached r ++ [f]).

(** [removeHooks]:
    [L.DomEvent.off(this._map._container, 'wheel', this._onWheelScroll, this)] *)
Definition removeHooks (r : Registry) : Registry :=
  mkRegistry (bound r) (remove Nat.eq_dec (bound r) (attached r)).

Inductive Call := CallAddHooks | CallRemoveHooks.

Definition call (r : Registry) (c : Call) : Registry :=
  match c with
  | CallAddHooks => addHooks r
  | CallRemoveHooks => removeHooks r
  end.

(** Modelled from the spec: [enable()] and [disable()] of the host's
    [L.Handler], as in [enable] and [disable] above: no-ops on a handler
    that is already enabled, or not enabled, and otherwise a call of
    [addHooks] or [removeHooks]. *)
Record Hooked := mkHooked {
  enabled : bool;
  registry : Registry
}.

Definition enable (s : Hooked) : Hooked :=
  if enabled s then s else mkHooked true (addHooks (registry s)).

Definition disable (s : Hooked) : Hooked :=
  if negb (enabled s) then s else mkHooked false (removeHooks (registry s)).

Inductive Toggle := CallEnable | CallDisable.

Definition toggle (s : Hooked) (t : Toggle) : Hooked :=
  match t with
  | CallEnable => enable s
  | CallDisable => disable s
  end.

(** A native wheel event on the container: every registered function runs,
    in the order of registration. *)
Definition dispatchWheel {M : Type} {host : Host M}
    (e : WheelEvent) (r : Registry) (w : World M) : World M :=
  fold_left (fun w (_ : nat) => _onWheelScroll e w) (attached r) w.

End Listeners.

(** ** Loading the file

    The wrapper around the factory: [init], which hands the factory to the
    module system it finds or waits for Leaflet's global [L], and the global
    [window.SmoothWheelZoom] with [addTo] and [_doAddTo]. *)

Module Loader.

(** What the file finds around it. *)
Record Env := mkEnv {
  amd : bool;         (* typeof define === 'function' && define.amd *)
  commonjs : bool;    (* typeof module !== 'undefined' && module.exports *)
  has_window : bool   (* typeof window !== 'undefined' *)
}.

(** A page that loads the file with a script tag. *)
Definition browser : Env := mkEnv false false true.

(** The [options] argument of [addTo]: [None] when it is missing (falsy),
    otherwise its [smoothWheelZoom] field, [None] when the field is
    missing. *)
Definition AddOptions := option (option smoothWheelZoomOption).

(** [!options || options.smoothWheelZoom !== false] *)
Definition wants_enabled (options : AddOptions) : bool :=
  match options with
  | None => true
  | Some (Some OptFalse) => false
  | Some _ => true
  end.

Section Pages.

Context {M : Type}.

(** A pending [setTimeout(tryAdd, 10)]: the closure's [attempts], [map] and
    [options]. *)
Record Poll := mkPoll {
  attempts : nat;
  target : M;
  options : AddOptions
}.

Record Page := mkPage {
  leaflet : bool;                (* window.L && window.L.Handler *)
  SmoothWheelZoomClass : bool;   (* the variable is not null *)
  amd_defined : bool;            (* define(['leaflet'], factory) was called *)
  module_exports : bool;         (* module.exports was assigned *)
  init_pending : bool;           (* a setTimeout(init, 10) is pending *)
  polls : list Poll;             (* pending setTimeout(tryAdd, 10), oldest first *)
  handlers : list (World M)      (* the handlers _doAddTo made, oldest first *)
}.

(** [init()] *)
Definition init (env : Env) (s : Page) : Page :=
  if amd env then
    mkPage (leaflet s) (SmoothWheelZoomClass s) true (module_exports s)
           (init_pending s) (polls s) (handlers s)
  else if commonjs env then
    mkPage (leaflet s) (SmoothWheelZoomClass s) (amd_defined s) true
           (init_pending s) (polls s) (handlers s)
  else if has_window env && leaflet s then
    mkPage (leaflet s) true (amd_defined s) (module_exports s)
           (init_pending s) (polls s) (handlers s)
  else if has_window env then
    mkPage (leaflet s) (SmoothWheelZoomClass s) (amd_defined s)
           (module_exports s) true (polls s) (handlers s)
  else s.

(** [_doAddTo(map, options)]: a new handler on [map], enabled unless
    [options.smoothWheelZoom] is [false]. *)
Definition _doAddTo (map : M) (options : AddOptions) : World M :=
  let handler := freshWorld map in
  if wants_enabled options then enable handler else handler.

Definition add_handler (h : World M) (s : Page) : Page :=
  mkPage (leaflet s) (SmoothWheelZoomClass s) (amd_defined s)
         (module_exports s) (init_pending s) (polls s) (handlers s ++ [h]).

Definition with_polls (l : list Poll) (s : Page) : Page :=
  mkPage (leaflet s) (SmoothWheelZoomClass s) (amd_defined s)
         (module_exports s) (init_pending s) l (handlers s).

(** [tryAdd()], the closure of [addTo]; [attempts++] counts the call whether
    or not it schedules another one. *)
Definition tryAdd (p : Poll) (s : Page) : Page :=
  if SmoothWheelZoomClass s then
    add_handler (_doAddTo (target p) (options p)) s
  else if Nat.ltb (attempts p) 100 then
    with_polls (polls s ++ [mkPoll (S (attempts p)) (target p) (options p)]) s
  else s.

(** [window.SmoothWheelZoom.addTo(map, options)]; it exists only where
    [window] does.  The result is the handler, or [null] when the class is
    not there yet. *)
Definition addTo (env : Env) (map : M) (options : AddOptions) (s : Page)
  : option (World M) * Page :=
  if negb (has_window env) then (None, s)
  else if negb (SmoothWheelZoomClass s) then
    (None, tryAdd (mkPoll 0 map options) s)
  else
    (Some (_doAddTo map options), add_handler (_doAddTo map options) s).

(** The file is evaluated: nothing is there yet, then [init()] runs. *)
Definition boot (env : Env) (leaflet_there : bool) : Page :=
  init env (mkPage leaflet_there false false false false [] []).

(** What happens on the page afterwards. *)
Inductive Event :=
| LeafletLoads                            (* window.L is defined *)
| InitTimer                               (* the pending setTimeout(init, 10) expires *)
| PollTimer                               (* the oldest setTimeout(tryAdd, 10) expires *)
| AddTo (map : M) (options : AddOptions).

Definition step (env : Env) (s : Page) (ev : Event) : Page :=
  match ev with
  | LeafletLoads =>
      mkPage true (SmoothWheelZoomClass s) (amd_defined s) (module_exports s)
             (init_pending s) (polls s) (handlers s)
  | InitTimer =>
      if init_pending s then
        init env (mkPage (leaflet s) (SmoothWheelZoomClass s) (amd_defined s)
                         (module_exports s) false (polls s) (handlers s))
      else s
  | PollTimer =>
      match polls s with
      | p :: rest => tryAdd p (with_polls rest s)
      | [] => s
      end
  | AddTo map options => snd (addTo env map options s)
  end.

Definition run (env : Env) (events : list Event) (s : Page) : Page :=
  fold_left (step env) events s.

Definition is_addTo (ev : Event) : bool :=
  match ev with AddTo _ _ => true | _ => false end.

Definition is_timer (ev : Event) : bool :=
  match ev with InitTimer | PollTimer => true | _ => false end.

Definition is_pollTimer (ev : Event) : bool :=
  match ev with PollTimer => true | _ => false end.

End Pages.

Arguments Poll : clear implicits.
Arguments Page : clear implicits.
Arguments Event : clear implicits.

End Loader.

(** * Proofs *)

(** Expose the fields of the handler of a world. *)
Ltac open_world w :=
  destruct w as [[enabled wheeling mousePos centerPt startLL wheelStartLL
                  startZ moved zooming goal prevC prevZ animId timerId
                  zm ctr] map win log].

(** Run a method on an opened world: innermost assignments first, the
    host's methods and the arithmetic left as they are. *)
Ltac symex :=
  cbv -[app remove filter JS.Math_floor JS.Math_abs accumulate out_of_range
        _getWheelDelta _mouseEventToContainerPoint divideBy subtract
        getZoom getCenter getMinZoom getMaxZoom _limitZoom getSize
        containerPointToLatLng project unproject options_smoothWheelZoom
        options_smoothSensitivity _panAnim stop _panAnim_stop _moveStart
        _move _moveEnd LatLng_equals].

(** ** [Math.floor] on examples *)

Example floor_pos : JS.Math_floor 1000.9 = 1000.
Proof. vm_compute. reflexivity. Qed.

Example floor_neg : JS.Math_floor (-100.6) = -101.
Proof. vm_compute. reflexivity. Qed.

Example floor_int : JS.Math_floor (-3) = -3.
Proof. vm_compute. reflexivity. Qed.

Example floor_small : JS.Math_floor 0.7 = 0.
Proof. vm_compute. reflexivity. Qed.

Example floor_small_neg : JS.Math_floor (-0.2) = -1.
Proof. vm_compute. reflexivity. Qed.

Example floor_big : JS.Math_floor 0x1p60 = 0x1p60.
Proof. vm_compute. reflexivity. Qed.

Example floor_nan : JS.Math_floor nan = nan.
Proof. vm_compute. reflexivity. Qed.

Example trunc_neg : JS.Math_trunc (-100.6) = -100.
Proof. vm_compute. reflexivity. Qed.

(** Rounding down is dropping the digits after the point on what is not
    negative. *)
Lemma floor_is_trunc (v : float) :
  (v <? 0) = false -> JS.Math_floor v = JS.Math_trunc v.
Proof. intros E. unfold JS.Math_trunc. rewrite E. reflexivity. Qed.

(** ** Facts about binary64 arithmetic

    Only what the handler's tests and its accumulation need: how the
    comparisons relate on numbers, and that [NaN] is absorbing. *)
Module FloatFacts.

Lemma SFcompare_antisym (a b : spec_float) :
  SFcompare b a = option_map CompOpp (SFcompare a b).
Proof.
  destruct a as [sa|sa| |sa ma ea], b as [sb|sb| |sb mb eb]; cbn;
    try reflexivity;
    try (destruct sa; reflexivity);
    try (destruct sb; reflexivity);
    try (destruct sa, sb; reflexivity).
  destruct sa, sb; try reflexivity;
    rewrite (Z.compare_antisym ea eb);
    destruct (Z.compare ea eb) eqn:E; cbn; try reflexivity;
    change (Pos.compare_cont Eq mb ma) with (Pos.compare mb ma);
    change (Pos.compare_cont Eq ma mb) with (Pos.compare ma mb);
    rewrite (Pos.compare_antisym ma mb);
    destruct (Pos.compare ma mb); reflexivity.
Qed.

Lemma is_nan_false_compare (a : float) :
  PrimFloat.is_nan a = false -> Prim2SF a <> S754_nan.
Proof.
  unfold PrimFloat.is_nan. rewrite FloatAxioms.eqb_spec. intros E N.
  rewrite N in E. discriminate E.
Qed.

Lemma SFcompare_numbers (a b : spec_float) :
  a <> S754_nan -> b <> S754_nan -> exists c, SFcompare a b = Some c.
Proof.
  intros Ha Hb.
  destruct a as [sa|sa| |sa ma ea], b as [sb|sb| |sb mb eb]; cbn;
    try congruence; eauto.
Qed.

(** On numbers, [not (a < b)] is [b <= a]. *)
Lemma ltb_false_leb (a b : float) :
  PrimFloat.is_nan a = false -> PrimFloat.is_nan b = false ->
  (a <? b) = false -> (b <=? a) = true.
Proof.
  intros Na Nb. rewrite FloatAxioms.ltb_spec, FloatAxioms.leb_spec. unfold SFltb, SFleb.
  rewrite (SFcompare_antisym (Prim2SF a) (Prim2SF b)).
  destruct (SFcompare_numbers _ _ (is_nan_false_compare a Na)
                                  (is_nan_false_compare b Nb)) as [c ->].
  destruct c; cbn; congruence.
Qed.

(** [a <= b] excludes [b < a]. *)
Lemma leb_true_ltb_false (a b : float) :
  (a <=? b) = true -> (b <? a) = false.
Proof.
  rewrite FloatAxioms.ltb_spec, FloatAxioms.leb_spec. unfold SFltb, SFleb.
  rewrite (SFcompare_antisym (Prim2SF a) (Prim2SF b)).
  destruct (SFcompare (Prim2SF a) (Prim2SF b)) as [[ | | ]|]; cbn; congruence.
Qed.

Lemma SFcompare_refl (a : spec_float) :
  a <> S754_nan -> SFcompare a a = Some Eq.
Proof.
  destruct a as [s|s| |s m e]; cbn; try congruence; intros _.
  - destruct s; reflexivity.
  - destruct s; rewrite Z.compare_refl, Pos.compare_cont_refl; reflexivity.
Qed.

Lemma not_nan_is_nan (a : float) :
  Prim2SF a <> S754_nan -> PrimFloat.is_nan a = false.
Proof.
  intros N. unfold PrimFloat.is_nan. rewrite FloatAxioms.eqb_spec.
  unfold SFeqb. rewrite (SFcompare_refl _ N). reflexivity.
Qed.

(** A comparison that holds has numbers on both sides. *)
Lemma leb_true_numbers (a b : float) :
  (a <=? b) = true -> PrimFloat.is_nan a = false /\ PrimFloat.is_nan b = false.
Proof.
  rewrite FloatAxioms.leb_spec. unfold SFleb. intros E.
  split; apply not_nan_is_nan; intros N; rewrite N in E.
  - discriminate E.
  - destruct (Prim2SF a); discriminate E.
Qed.

(** So has a strict comparison, and it implies the weak one. *)
Lemma ltb_true_numbers (a b : float) :
  (a <? b) = true -> PrimFloat.is_nan a = false /\ PrimFloat.is_nan b = false.
Proof.
  rewrite FloatAxioms.ltb_spec. unfold SFltb. intros E.
  split; apply not_nan_is_nan; intros N; rewrite N in E.
  - discriminate E.
  - destruct (Prim2SF a); discriminate E.
Qed.

Lemma ltb_true_leb (a b : float) : (a <? b) = true -> (a <=? b) = true.
Proof.
  rewrite FloatAxioms.ltb_spec, FloatAxioms.leb_spec. unfold SFltb, SFleb.
  destruct (SFcompare (Prim2SF a) (Prim2SF b)) as [[ | | ]|]; congruence.
Qed.

Lemma Prim2SF_nan (a : float) : Prim2SF a = S754_nan -> a = nan.
Proof.
  intros E. rewrite <- (SF2Prim_Prim2SF a), E. reflexivity.
Qed.

Lemma mul_nan_l (b : float) : nan * b = nan.
Proof. apply Prim2SF_nan. rewrite FloatAxioms.mul_spec. reflexivity. Qed.

Lemma div_nan_l (b : float) : nan / b = nan.
Proof. apply Prim2SF_nan. rewrite FloatAxioms.div_spec. reflexivity. Qed.

Lemma add_nan_r (a : float) : a + nan = nan.
Proof.
  apply Prim2SF_nan. rewrite FloatAxioms.add_spec.
  destruct (Prim2SF a) as [s|s| |s m e]; try reflexivity; destruct s; reflexivity.
Qed.

Lemma ltb_nan_l (b : float) : (nan <? b) = false.
Proof. rewrite FloatAxioms.ltb_spec. reflexivity. Qed.

Lemma ltb_nan_r (a : float) : (a <? nan) = false.
Proof.
  rewrite FloatAxioms.ltb_spec. unfold SFltb.
  destruct (Prim2SF a) as [s|s| |s m e]; reflexivity.
Qed.

Lemma eqb_nan_r (a : float) : (a =? nan) = false.
Proof.
  rewrite FloatAxioms.eqb_spec. unfold SFeqb.
  destruct (Prim2SF a) as [s|s| |s m e]; reflexivity.
Qed.

End FloatFacts.

(** ** The animation driver, frame by frame *)

Section Driver.

Context {M : Type} {host : Host M}.

Lemma tick_interfered (w : World M) :
  interfered w = true ->
  _updateWheelZoom w = cancelAnimationFrame (_zoomAnimationId (w_this w)) w.
Proof.
  intros Hi. unfold _updateWheelZoom. rewrite Hi. reflexivity.
Qed.

Lemma tick_converged (w : World M) :
  interfered w = false -> converged w = true ->
  _updateWheelZoom w =
    let w1 := cancelAnimationFrame (_zoomAnimationId (w_this w)) w in
    if _moved (w_this w) then
      mkWorld (set_moved false (w_this w)) (_moveEnd (w_map w) true)
              (w_win w1) (w_log w ++ [Call_moveEnd true])
    else w1.
Proof.
  intros Hi Hc. unfold _updateWheelZoom. rewrite Hi.
  unfold converged, zoomDiff in Hc. rewrite Hc.
  destruct (_zoomAnimationId (w_this w)); reflexivity.
Qed.

Lemma tick_dead_center (w : World M) :
  interfered w = false -> converged w = false -> dead_center w = true ->
  _updateWheelZoom w =
    mkWorld (skippedHandler w) (w_map w) (requested (w_win w)) (w_log w).
Proof.
  intros Hi Hc Hd. unfold _updateWheelZoom. rewrite Hi.
  unfold converged, zoomDiff in Hc. rewrite Hc.
  unfold dead_center, cursorOffset in Hd.
  open_world w. cbn in Hd |- *. rewrite Hd. reflexivity.
Qed.

Lemma tick_commit (w : World M) :
  interfered w = false -> converged w = false -> dead_center w = false ->
  _updateWheelZoom w =
    mkWorld (committedHandler w) (committedMap w) (requested (w_win w))
            (w_log w ++ commitCalls w).
Proof.
  intros Hi Hc Hd. unfold _updateWheelZoom. rewrite Hi.
  unfold converged, zoomDiff in Hc. rewrite Hc.
  unfold dead_center, cursorOffset in Hd.
  open_world w. cbn in Hd |- *. rewrite Hd.
  unfold committedHandler, committedMap, commitCalls, anchorCenter, nextZoom,
    easedZoom, cursorOffset, requested. cbn.
  destruct (options_smoothWheelZoom map), moved;
    cbv -[app JS.Math_floor]; rewrite <- ?app_assoc; reflexivity.
Qed.

(** The wheel-event methods, run symbolically. *)
Lemma onWheelStart_result (e : WheelEvent) (w : World M) :
  _onWheelStart e w = gestureStarted e w.
Proof.
  open_world w. unfold gestureStarted, stoppedMap, requested. symex.
  destruct (_panAnim (stop map)); rewrite <- ?app_assoc; reflexivity.
Qed.

Lemma onWheeling_result (e : WheelEvent) (w : World M) :
  _onWheeling e w = wheeled e w.
Proof.
  open_world w. unfold wheeled, goalAfter. symex.
  destruct (out_of_range map _), timerId; rewrite <- ?app_assoc; reflexivity.
Qed.

(** Every frame only adds to the log; what it adds is known per branch. *)
Lemma tick_log (w : World M) :
  w_log (_updateWheelZoom w) =
    w_log w ++
    (if interfered w then []
     else if converged w then
       (if _moved (w_this w) then [Call_moveEnd true] else [])
     else if dead_center w then []
     else commitCalls w).
Proof.
  destruct (interfered w) eqn:Hi.
  - rewrite (tick_interfered w Hi), app_nil_r.
    destruct (_zoomAnimationId (w_this w)); reflexivity.
  - destruct (converged w) eqn:Hc.
    + rewrite (tick_converged w Hi Hc).
      destruct (_zoomAnimationId (w_this w)), (_moved (w_this w));
        cbn; rewrite ?app_nil_r; reflexivity.
    + destruct (dead_center w) eqn:Hd.
      * rewrite (tick_dead_center w Hi Hc Hd), app_nil_r. reflexivity.
      * rewrite (tick_commit w Hi Hc Hd). reflexivity.
Qed.

Lemma commitCalls_commits (w : World M) :
  filter is_commit (commitCalls w) = [Call_move (anchorCenter w) (nextZoom w)].
Proof.
  unfold commitCalls. destruct (_moved (w_this w)); reflexivity.
Qed.

(** C3. A frame commits at most once, and the commit it makes (when the view
    was not interfered with, the stop condition does not hold and the cursor
    is off the view centre) is [map._move(center, zoom)] with [zoom] the eased
    zoom of the frame and [center]
    - in centre mode, the geographic point that was under the view centre
      at gesture start ([_startLatLng]);
    - otherwise (cursor mode, the default), the unprojection at [zoom] of
      the projection at [zoom] of the gesture-start point under the cursor
      ([_wheelStartLatLng]) minus the pixel offset
      [delta = _wheelMousePosition - _centerPoint]. *)
Theorem committed_center_is_anchor (w : World M) :
  let map := w_map w in
  let this := w_this w in
  let zoom := easedZoom (getZoom map) (_goalZoom this) in
  let delta := subtract (_wheelMousePosition this) (_centerPoint this) in
  let center :=
    match options_smoothWheelZoom map with
    | OptCenter => _startLatLng this
    | _ => unproject map (subtract (project map (_wheelStartLatLng this) zoom) delta) zoom
    end in
  exists added,
    w_log (_updateWheelZoom w) = w_log w ++ added /\
    filter is_commit added =
      if interfered w || converged w || dead_center w then []
      else [Call_move center zoom].
Proof.
  cbv zeta. rewrite tick_log. eexists. split; [reflexivity|].
  destruct (interfered w); [reflexivity|].
  destruct (converged w); [destruct (_moved (w_this w)); reflexivity|].
  destruct (dead_center w); [reflexivity|].
  cbn [orb]. rewrite commitCalls_commits. reflexivity.
Qed.

(** C6. On a frame that does not stop the loop, the zoom the handler moves
    to ([this._zoom], and the zoom of the frame's [map._move], which it
    calls unless the cursor is at dead centre) is
    [currentViewZoom + (goalZoom - currentViewZoom) * 0.3] cut to two
    decimals by [Math.floor(z * 100) / 100]: the digits after the second
    decimal are dropped whenever the eased value is not negative. *)
Theorem next_zoom_is_eased (w : World M) :
  interfered w = false -> converged w = false ->
  let current := getZoom (w_map w) in
  let goal := _goalZoom (w_this w) in
  let eased := current + (goal - current) * 0.3 in
  let zoom := JS.Math_floor (eased * 100) / 100 in
  _zoom (w_this (_updateWheelZoom w)) = zoom /\
  (forall c z, In (Call_move c z) (w_log (_updateWheelZoom w)) ->
               In (Call_move c z) (w_log w) \/ z = zoom) /\
  (dead_center w = false ->
   exists c, In (Call_move c zoom) (w_log (_updateWheelZoom w))) /\
  ((eased * 100 <? 0) = false -> zoom = JS.Math_trunc (eased * 100) / 100).
Proof.
  intros Hi Hc. cbv zeta. split; [|split; [|split]].
  - destruct (dead_center w) eqn:Hd.
    + rewrite (tick_dead_center w Hi Hc Hd). reflexivity.
    + rewrite (tick_commit w Hi Hc Hd). reflexivity.
  - intros c z. rewrite tick_log, Hi, Hc. rewrite in_app_iff.
    intros [Hin|Hin]; [left; exact Hin|right].
    destruct (dead_center w); [destruct Hin|].
    unfold commitCalls in Hin. apply in_app_iff in Hin.
    destruct Hin as [Hin|[Hin|[]]].
    + destruct (_moved (w_this w)); cbn in Hin; [destruct Hin|].
      destruct Hin as [Hin|[]]; discriminate Hin.
    + injection Hin as _ <-. reflexivity.
  - intros Hd. exists (anchorCenter w). rewrite tick_log, Hi, Hc, Hd.
    apply in_or_app. right. unfold commitCalls. apply in_or_app. right.
    left. reflexivity.
  - intros Hpos. rewrite (floor_is_trunc _ Hpos). reflexivity.
Qed.

(** C7. On a frame where the pixel offset of the cursor from the view centre
    is exactly zero, the handler commits nothing; and when the frame is not
    stopped by the interference check or the stop condition, it calls no
    method of the map at all, leaves the map as it is and requests the next
    frame. *)
Theorem dead_center_frame_is_skipped (w : World M) :
  dead_center w = true ->
  (exists added, w_log (_updateWheelZoom w) = w_log w ++ added /\
                 filter is_commit added = []) /\
  (interfered w = false -> converged w = false ->
   w_map (_updateWheelZoom w) = w_map w /\
   w_log (_updateWheelZoom w) = w_log w /\
   frames (w_win (_updateWheelZoom w)) =
     frames (w_win w) ++ [nextHandle (w_win w)] /\
   _zoomAnimationId (w_this (_updateWheelZoom w)) = Some (nextHandle (w_win w))).
Proof.
  intros Hd. split.
  - rewrite tick_log, Hd. eexists. split; [reflexivity|].
    destruct (interfered w); [reflexivity|].
    destruct (converged w); [|reflexivity].
    destruct (_moved (w_this w)); reflexivity.
  - intros Hi Hc. rewrite (tick_dead_center w Hi Hc Hd). cbn. auto.
Qed.

End Driver.

(** ** Runs of the page *)

Section Runs.

Context {M : Type} {host : Host M}.

Lemma scene_tests (w w' : World M) :
  scene w' = scene w ->
  interfered w' = interfered w /\ dead_center w' = dead_center w /\
  zoomDiff w' = zoomDiff w.
Proof.
  unfold scene. intros E. injection E as Em El Eg Ec Ez Ep Eq.
  unfold interfered, dead_center, cursorOffset, zoomDiff.
  rewrite Em, Eg, Ec, Ez, Ep, Eq. auto.
Qed.

Lemma scene_fireTimer (id : nat) (w : World M) :
  scene (fireTimer id w) = scene w /\
  frames (w_win (fireTimer id w)) = frames (w_win w).
Proof.
  unfold fireTimer. destruct (timer_pending id (w_win w)); auto.
Qed.

Lemma frame_pending_In (id : nat) (b : Window) :
  frame_pending id b = true <-> In id (frames b).
Proof.
  unfold frame_pending. rewrite existsb_exists. split.
  - intros [j [Hj E]]. apply Nat.eqb_eq in E. subst. exact Hj.
  - intros Hin. exists id. split; [exact Hin|apply Nat.eqb_refl].
Qed.

(** *** After interference *)

Lemma callback_interfered (id : nat) (w : World M) :
  interfered w = true ->
  let w' := runFrameCallback id w in
  w_this w' = w_this w /\ w_map w' = w_map w /\ w_log w' = w_log w /\
  (forall j, In j (frames (w_win w')) -> In j (frames (w_win w)) /\ j <> id).
Proof.
  intros Hi. cbv zeta. unfold runFrameCallback.
  destruct (frame_pending id (w_win w)) eqn:Hp.
  - rewrite tick_interfered by exact Hi. cbn -[remove].
    destruct (_zoomAnimationId (w_this w)) as [k|]; cbn -[remove];
      (split; [reflexivity|split; [reflexivity|split; [reflexivity|]]]);
      intros j Hj.
    + apply in_remove in Hj. destruct Hj as [Hj _].
      apply in_remove in Hj. exact Hj.
    + apply in_remove in Hj. exact Hj.
  - split; [reflexivity|split; [reflexivity|split; [reflexivity|]]].
    intros j Hj. split; [exact Hj|]. intros ->.
    apply frame_pending_In in Hj. congruence.
Qed.

Lemma callbacks_interfered (l : list nat) (w : World M) :
  interfered w = true ->
  let w' := fold_left (fun w id => runFrameCallback id w) l w in
  w_this w' = w_this w /\ w_map w' = w_map w /\ w_log w' = w_log w /\
  (forall j, In j (frames (w_win w')) -> In j (frames (w_win w)) /\ ~ In j l).
Proof.
  revert w. induction l as [|id l IH]; intros w Hi; cbn.
  - repeat split; tauto.
  - destruct (callback_interfered id w Hi) as (Et & Em & El & Hf).
    assert (Hi' : interfered (runFrameCallback id w) = true).
    { unfold interfered in *. rewrite Et, Em. exact Hi. }
    destruct (IH _ Hi') as (Et' & Em' & El' & Hf').
    rewrite Et', Em', El'.
    split; [exact Et|split; [exact Em|split; [exact El|]]].
    intros j Hj. destruct (Hf' j Hj) as [Hj1 Hnl].
    destruct (Hf j Hj1) as [Hj0 Hne].
    split; [exact Hj0|]. intros [E|Hin]; [congruence|contradiction].
Qed.

Lemma animationFrame_interfered (w : World M) :
  interfered w = true ->
  let w' := animationFrame w in
  w_this w' = w_this w /\ w_map w' = w_map w /\ w_log w' = w_log w /\
  frames (w_win w') = [].
Proof.
  intros Hi. cbv zeta. unfold animationFrame.
  destruct (callbacks_interfered (frames (w_win w)) w Hi) as (Et & Em & El & Hf).
  repeat split; try assumption.
  destruct (frames (w_win (fold_left _ _ w))) as [|j r] eqn:E; [reflexivity|].
  destruct (Hf j (or_introl eq_refl)) as [Hin Hnot]. contradiction.
Qed.

Lemma animationFrame_idle (w : World M) :
  frames (w_win w) = [] -> animationFrame w = w.
Proof. unfold animationFrame. intros ->. reflexivity. Qed.

(** Once the loop has stopped on interference, nothing short of a new
    gesture makes the handler touch the map. *)
Lemma stopped_run_writes_nothing (inputs : list Input) (w : World M) :
  interfered w = true -> frames (w_win w) = [] ->
  within_gesture inputs w = true ->
  let w' := run inputs w in
  w_map w' = w_map w /\
  filter is_view_write (w_log w') = filter is_view_write (w_log w) /\
  frames (w_win w') = [].
Proof.
  revert w. induction inputs as [|i inputs IH]; intros w Hi Hf Hq; cbv zeta.
  - auto.
  - change (run (i :: inputs) w) with (run inputs (step w i)).
    cbn [within_gesture] in Hq. apply andb_true_iff in Hq.
    destruct Hq as [Hqi Hq].
    assert (Hstep : interfered (step w i) = true /\
                    frames (w_win (step w i)) = [] /\
                    w_map (step w i) = w_map w /\
                    filter is_view_write (w_log (step w i))
                      = filter is_view_write (w_log w)).
    { destruct i as [e|id| |f| |]; try discriminate Hqi; cbn [step].
      - unfold dispatchWheel. cbn [starts_gesture] in Hqi.
        destruct (wheelListener (w_win w)); [|auto].
        cbn in Hqi. apply negb_true_iff in Hqi.
        unfold _onWheelScroll. rewrite Hqi. rewrite onWheeling_result.
        split; [exact Hi|]. split; [exact Hf|]. split; [reflexivity|].
        cbn [wheeled w_log]. rewrite filter_app. cbn. apply app_nil_r.
      - destruct (scene_fireTimer id w) as [Es Ef].
        destruct (scene_tests _ _ Es) as (Ei & _ & _).
        unfold scene in Es. injection Es as Em El _ _ _ _ _.
        rewrite Ei, Ef, Em, El. auto.
      - rewrite (animationFrame_idle w Hf). auto. }
    destruct Hstep as (Hi' & Hf' & Em & El).
    destruct (IH _ Hi' Hf' Hq) as (Em' & El' & Ef').
    rewrite Em', El', Ef', Em, El. auto.
Qed.

(** C4. On a frame where the view's zoom or centre differs from the snapshot
    of the last commit, [_updateWheelZoom] returns at once: it calls no
    method of the map, changes nothing in the handler and requests no
    frame.  The whole refresh leaves no callback of the handler pending, and
    whatever frames, timer expiries and wheel events of the same gesture
    come next, the map is what it was and the handler has made no further
    call on it: only a new gesture starts the loop again. *)
Theorem interference_stops_the_loop (w : World M) (later : list Input) :
  interfered w = true ->
  within_gesture later (animationFrame w) = true ->
  _updateWheelZoom w = cancelAnimationFrame (_zoomAnimationId (w_this w)) w /\
  w_log (animationFrame w) = w_log w /\
  frames (w_win (animationFrame w)) = [] /\
  w_map (run (Frame :: later) w) = w_map w /\
  filter is_view_write (w_log (run (Frame :: later) w))
    = filter is_view_write (w_log w) /\
  frames (w_win (run (Frame :: later) w)) = [].
Proof.
  intros Hi Hq.
  destruct (animationFrame_interfered w Hi) as (Et & Em & El & Ef).
  assert (Hi' : interfered (animationFrame w) = true).
  { unfold interfered in *. rewrite Et, Em. exact Hi. }
  destruct (stopped_run_writes_nothing later (animationFrame w) Hi' Ef Hq)
    as (Em' & El' & Ef').
  split; [apply tick_interfered; exact Hi|].
  split; [exact El|]. split; [exact Ef|].
  change (run (Frame :: later) w) with (run later (animationFrame w)).
  rewrite Em', El', Ef', Em, El. auto.
Qed.

End Runs.

(** ** The cursor at the view centre *)

Section DeadCenter.

Context {M : Type} {host : Host M}.

Lemma not_near_not_converged (w : World M) :
  (0.005 <=? JS.Math_abs (zoomDiff w)) = true -> converged w = false.
Proof.
  intros Hfar. unfold converged.
  rewrite (FloatFacts.leb_true_ltb_false _ _ Hfar). reflexivity.
Qed.

Lemma callback_dead_center (id : nat) (w : World M) :
  interfered w = false -> dead_center w = true -> converged w = false ->
  let w' := runFrameCallback id w in
  scene w' = scene w /\
  _isWheeling (w_this w') = _isWheeling (w_this w) /\
  (frames (w_win w) <> [] -> frames (w_win w') <> []).
Proof.
  intros Hi Hd Hc. cbv zeta. unfold runFrameCallback.
  destruct (frame_pending id (w_win w)); [|auto].
  rewrite tick_dead_center by assumption.
  repeat split. cbn. intros _ E. apply app_eq_nil in E. destruct E; discriminate.
Qed.

Lemma converged_scene (w w' : World M) :
  scene w' = scene w -> _isWheeling (w_this w') = _isWheeling (w_this w) ->
  converged w' = converged w.
Proof.
  intros Es Ew. destruct (scene_tests w w' Es) as (_ & _ & Ez).
  unfold converged. rewrite Ez, Ew. reflexivity.
Qed.

Lemma callbacks_dead_center (l : list nat) (w : World M) :
  interfered w = false -> dead_center w = true -> converged w = false ->
  let w' := fold_left (fun w id => runFrameCallback id w) l w in
  scene w' = scene w /\
  _isWheeling (w_this w') = _isWheeling (w_this w) /\
  (frames (w_win w) <> [] -> frames (w_win w') <> []).
Proof.
  revert w. induction l as [|id l IH]; intros w Hi Hd Hc; cbn.
  - auto.
  - destruct (callback_dead_center id w Hi Hd Hc) as (Es & Ew & Hf).
    destruct (scene_tests _ _ Es) as (Ei & Ed & _).
    rewrite <- Ei in Hi. rewrite <- Ed in Hd.
    rewrite <- (converged_scene _ _ Es Ew) in Hc.
    destruct (IH _ Hi Hd Hc) as (Es' & Ew' & Hf').
    rewrite Es', Ew'. auto.
Qed.

Lemma animationFrame_dead_center (w : World M) :
  interfered w = false -> dead_center w = true -> converged w = false ->
  loop_running w = true ->
  scene (animationFrame w) = scene w /\ loop_running (animationFrame w) = true.
Proof.
  intros Hi Hd Hc Hr. unfold animationFrame.
  destruct (callbacks_dead_center (frames (w_win w)) w Hi Hd Hc) as (Es & _ & Hf).
  cbv zeta in Es, Hf.
  set (w' := fold_left _ (frames (w_win w)) w) in *.
  split; [exact Es|].
  assert (Hne : frames (w_win w') <> []).
  { apply Hf. unfold loop_running in Hr.
    destruct (frames (w_win w)); [discriminate Hr|discriminate]. }
  unfold loop_running. destruct (frames (w_win w')); [contradiction|reflexivity].
Qed.

(** With the cursor at the view centre and the view further than the
    threshold from the goal, quiet inputs change nothing a frame reads. *)
Lemma dead_center_quiet_run (inputs : list Input) (w : World M) :
  loop_running w = true ->
  interfered w = false ->
  dead_center w = true ->
  converged w = false ->
  (JS.Math_abs (zoomDiff w) <? 0.005) = false ->
  forallb quiet inputs = true ->
  scene (run inputs w) = scene w /\ loop_running (run inputs w) = true.
Proof.
  revert w. induction inputs as [|i inputs IH]; intros w Hr Hi Hd Hc Hfar Hq.
  - auto.
  - change (run (i :: inputs) w) with (run inputs (step w i)).
    cbn in Hq. apply andb_true_iff in Hq. destruct Hq as [Hqi Hq].
    assert (Hstep : scene (step w i) = scene w /\
                    loop_running (step w i) = true /\
                    converged (step w i) = false).
    { destruct i; try discriminate Hqi; cbn [step].
      - destruct (scene_fireTimer id w) as [Es Ef]. split; [exact Es|].
        split; [unfold loop_running in *; rewrite Ef; exact Hr|].
        destruct (scene_tests _ _ Es) as (_ & _ & Ez).
        unfold converged. rewrite Ez, Hfar. reflexivity.
      - destruct (animationFrame_dead_center w Hi Hd Hc Hr) as [Es Hr'].
        split; [exact Es|]. split; [exact Hr'|].
        destruct (scene_tests _ _ Es) as (_ & _ & Ez).
        unfold converged. rewrite Ez, Hfar. reflexivity. }
    destruct Hstep as (Es & Hr' & Hc').
    destruct (scene_tests _ _ Es) as (Ei & Ed & Ez).
    rewrite <- Ei in Hi. rewrite <- Ed in Hd. rewrite <- Ez in Hfar.
    destruct (IH _ Hr' Hi Hd Hc' Hfar Hq) as [Es' Hr''].
    rewrite Es', Es. auto.
Qed.

(** C10. With the recorded cursor position exactly at the view centre and
    [|goalZoom - currentViewZoom| >= 0.005], the loop never stops on its
    own: whatever display refreshes and timer expiries follow (the end of
    the gesture included), a frame callback is still pending, the stop
    condition is false, and the map, the log of calls and [zoomDiff] are
    what they were. *)
Theorem dead_center_loop_never_stops (w : World M) (inputs : list Input) :
  loop_running w = true ->
  interfered w = false ->
  dead_center w = true ->
  (0.005 <=? JS.Math_abs (zoomDiff w)) = true ->
  forallb quiet inputs = true ->
  let w' := run inputs w in
  loop_running w' = true /\ converged w' = false /\
  w_map w' = w_map w /\ w_log w' = w_log w /\ zoomDiff w' = zoomDiff w.
Proof.
  intros Hr Hi Hd Hfar Hq. cbv zeta.
  pose proof (FloatFacts.leb_true_ltb_false _ _ Hfar) as Hnear.
  destruct (dead_center_quiet_run inputs w Hr Hi Hd
              (not_near_not_converged w Hfar) Hnear Hq) as [Es Hr'].
  destruct (scene_tests _ _ Es) as (_ & _ & Ez).
  split; [exact Hr'|]. split.
  - unfold converged. rewrite Ez, Hnear. reflexivity.
  - unfold scene in Es. injection Es as Em El _ _ _ _ _. auto.
Qed.

End DeadCenter.

(** ** Wheel events: the goal zoom *)

Section Accumulator.

Context {M : Type} {host : Host M}.

Lemma onWheelScroll_goal (e : WheelEvent) (w : World M) :
  _goalZoom (w_this (_onWheelScroll e w)) =
    goalAfter (w_map (onEntry e w)) (_goalZoom (w_this (onEntry e w))) e /\
  w_map (_onWheelScroll e w) = w_map (onEntry e w) /\
  wheelListener (w_win (_onWheelScroll e w)) = wheelListener (w_win w).
Proof.
  unfold _onWheelScroll. fold (onEntry e w). rewrite onWheeling_result.
  split; [reflexivity|]. split; [reflexivity|].
  unfold onEntry. destruct (negb (_isWheeling (w_this w))); [|reflexivity].
  rewrite onWheelStart_result. reflexivity.
Qed.

(** The range test on a number that passes it. *)
Lemma in_range_number (map : M) (z : float) :
  PrimFloat.is_nan z = false ->
  PrimFloat.is_nan (getMinZoom map) = false ->
  PrimFloat.is_nan (getMaxZoom map) = false ->
  out_of_range map z = false ->
  (getMinZoom map <=? z) = true /\ (z <=? getMaxZoom map) = true.
Proof.
  intros Nz Nmin Nmax Hr. unfold out_of_range in Hr.
  apply orb_false_iff in Hr. destruct Hr as [Hlo Hhi]. split.
  - apply FloatFacts.ltb_false_leb; assumption.
  - apply FloatFacts.ltb_false_leb; assumption.
Qed.

Lemma out_of_range_number (map : M) (z : float) :
  out_of_range map z = true -> PrimFloat.is_nan z = false.
Proof.
  unfold out_of_range. intros Hr. apply orb_true_iff in Hr.
  destruct Hr as [Hr|Hr]; apply FloatFacts.ltb_true_numbers in Hr; tauto.
Qed.

(** C5. After any sequence of inputs (wheel events, display refreshes, timer
    expiries, changes by other agents) that ends with a wheel event reaching
    the handler, the goal zoom, when it is a number, lies within
    [[map.getMinZoom(), map.getMaxZoom()]], provided the map's [_limitZoom]
    answers within these bounds on numbers. *)
Theorem goal_zoom_stays_in_range
    (inputs : list Input) (e : WheelEvent) (w : World M) :
  let w' := run (inputs ++ [Wheel e]) w in
  let goal := _goalZoom (w_this w') in
  (forall z : float,
      PrimFloat.is_nan z = false ->
      (getMinZoom (w_map w') <=? _limitZoom (w_map w') z) = true /\
      (_limitZoom (w_map w') z <=? getMaxZoom (w_map w')) = true) ->
  wheelListener (w_win (run inputs w)) = true ->
  PrimFloat.is_nan goal = false ->
  (getMinZoom (w_map w') <=? goal) = true /\
  (goal <=? getMaxZoom (w_map w')) = true.
Proof.
  cbv zeta.
  assert (Esnoc : run (inputs ++ [Wheel e]) w = dispatchWheel e (run inputs w)).
  { unfold run. rewrite fold_left_app. reflexivity. }
  rewrite Esnoc. set (w1 := run inputs w).
  intros Hclamp Hl. revert Hclamp. unfold dispatchWheel. rewrite Hl.
  destruct (onWheelScroll_goal e w1) as (Eg & Em & _).
  rewrite Eg, Em. unfold goalAfter.
  set (map := w_map (onEntry e w1)). set (sum := accumulate _ _ _).
  intros Hclamp.
  destruct (out_of_range map sum) eqn:Hr.
  - intros _. apply Hclamp. apply (out_of_range_number map). exact Hr.
  - intros Nz. destruct (Hclamp 0 eq_refl) as [Hlo Hhi].
    apply FloatFacts.leb_true_numbers in Hlo. apply FloatFacts.leb_true_numbers in Hhi.
    apply in_range_number; tauto.
Qed.

(** The accumulation step of every wheel event that reaches the handler. *)
Lemma wheel_event_accumulation (e : WheelEvent) (w : World M) :
  let map := w_map (onEntry e w) in
  let goal := _goalZoom (w_this (onEntry e w)) in
  let sum := goal + _getWheelDelta e * 0.003 * options_smoothSensitivity map in
  _goalZoom (w_this (_onWheelScroll e w)) =
    if (sum <? getMinZoom map) || (getMaxZoom map <? sum)
    then _limitZoom map sum else sum.
Proof.
  cbv zeta. destruct (onWheelScroll_goal e w) as (Eg & _). rewrite Eg.
  reflexivity.
Qed.

(** On a host without [L.DomEvent.getWheelDelta], an event whose [deltaY] is
    missing normalises to [NaN] in every delta mode. *)
Lemma getWheelDelta_missing (e : WheelEvent) :
  DomEvent_getWheelDelta = None -> deltaY e = JS.Undefined ->
  _getWheelDelta e = nan.
Proof.
  intros Hnone Hy. unfold _getWheelDelta. rewrite Hnone, Hy. cbn.
  change (- nan) with nan.
  destruct (JS.strictEqNum (deltaMode e) 0);
    [apply FloatFacts.div_nan_l|].
  destruct (JS.strictEqNum (deltaMode e) 1);
    [apply FloatFacts.mul_nan_l|reflexivity].
Qed.

(** ... and the goal zoom is [NaN] from then on, whatever it was. *)
Lemma missing_delta_poisons_goal (e : WheelEvent) (w : World M) :
  DomEvent_getWheelDelta = None -> deltaY e = JS.Undefined ->
  _goalZoom (w_this (_onWheelScroll e w)) = nan.
Proof.
  intros Hnone Hy. destruct (onWheelScroll_goal e w) as (Eg & _). rewrite Eg.
  unfold goalAfter, accumulate. rewrite (getWheelDelta_missing e Hnone Hy).
  rewrite !FloatFacts.mul_nan_l, FloatFacts.add_nan_r.
  unfold out_of_range. rewrite FloatFacts.ltb_nan_l, FloatFacts.ltb_nan_r.
  reflexivity.
Qed.

(** With the host's [L.DomEvent.getWheelDelta], the host's answer is the
    delta. *)
Lemma getWheelDelta_delegates (f : WheelEvent -> float) (e : WheelEvent) :
  DomEvent_getWheelDelta = Some f -> _getWheelDelta e = f e.
Proof. intros E. unfold _getWheelDelta. rewrite E. reflexivity. Qed.

End Accumulator.

(** C2. Every wheel event adds [normalizedDelta * 0.003 * smoothSensitivity]
    to the goal zoom (the sum is then clamped when out of range).  From zoom
    10 with sensitivity 1, a notch of normalised magnitude [+1] makes the
    goal [10.003]; ten of them in one gesture make it [10.03] up to the
    rounding of the ten binary64 additions, which yield the double next
    above [10.03]. *)
Theorem goal_zoom_accumulates :
  (forall (M : Type) (host : Host M) (e : WheelEvent) (w : World M),
      let map := w_map (onEntry e w) in
      let goal := _goalZoom (w_this (onEntry e w)) in
      let sum := goal + _getWheelDelta e * 0.003 * options_smoothSensitivity map in
      _goalZoom (w_this (_onWheelScroll e w)) =
        if out_of_range map sum then _limitZoom map sum else sum) /\
  default_smoothSensitivity = 1 /\
  options_smoothSensitivity (Host := SimpleMap.plain) (w_map Scenario.start) = 1 /\
  _getWheelDelta (host := SimpleMap.plain) Scenario.notch = 1 /\
  _goalZoom (w_this (run (host := SimpleMap.plain) (Scenario.wheel 1 Scenario.notch)
                         Scenario.start)) = 10.003 /\
  (let goal := _goalZoom (w_this (run (host := SimpleMap.plain)
                                      (Scenario.wheel 10 Scenario.notch)
                                      Scenario.start)) in
   goal = next_up 10.03 /\ (abs (goal - 10.03) <? 1e-14) = true).
Proof.
  split; [intros M host e w; apply wheel_event_accumulation|].
  split; [reflexivity|].
  split; [vm_compute; reflexivity|].
  split; [vm_compute; reflexivity|].
  split; [vm_compute; reflexivity|].
  split; vm_compute; reflexivity.
Qed.

(** C8. A wheel event without delta fields, on a host without
    [L.DomEvent.getWheelDelta]: the handler's own normalisation yields
    [NaN], the goal zoom goes from [10.003] to [NaN] instead of staying, and
    the next frame moves the map to zoom [NaN].  On the host with Leaflet
    1.x's [getWheelDelta], which answers [0] for it, the same event leaves
    the goal where it was. *)
Theorem missing_delta_makes_goal_nan :
  let before := run (host := SimpleMap.plain) [Wheel Scenario.notch] Scenario.start in
  let after := run (host := SimpleMap.plain) [Wheel Scenario.no_delta] before in
  let before1 := run (host := SimpleMap.leaflet1) [Wheel Scenario.notch]
                     Scenario.start in
  let after1 := run (host := SimpleMap.leaflet1) [Wheel Scenario.no_delta] before1 in
  _getWheelDelta (host := SimpleMap.plain) Scenario.no_delta = nan /\
  _goalZoom (w_this before) = 10.003 /\
  _goalZoom (w_this after) = nan /\
  SimpleMap.zoom (w_map (animationFrame (host := SimpleMap.plain) after)) = nan /\
  _goalZoom (w_this after1) = _goalZoom (w_this before1).
Proof.
  cbv zeta. repeat (apply conj); vm_compute; reflexivity.
Qed.

(** ** Disabling the handler *)

Section Disabling.

Context {M : Type} {host : Host M}.

(** C9 as the code has it. [removeHooks] detaches the wheel listener and
    does nothing else, so [disable()] is idempotent, does nothing on a
    handler that is not enabled, and on an enabled one detaches the
    listener and nothing more: the pending frame callbacks and timers,
    their handles in the handler, the wheeling flag, the map and the log are
    what they were. *)
Theorem disable_only_detaches (w : World M) :
  removeHooks w =
    mkWorld (w_this w) (w_map w)
            (mkWindow false (frames (w_win w)) (timers (w_win w))
                      (nextHandle (w_win w)))
            (w_log w) /\
  removeHooks (removeHooks w) = removeHooks w /\
  disable (disable w) = disable w /\
  (_enabled (w_this w) = false -> disable w = w) /\
  wheelListener (w_win (disable w)) =
    wheelListener (w_win w) && negb (_enabled (w_this w)) /\
  frames (w_win (disable w)) = frames (w_win w) /\
  timers (w_win (disable w)) = timers (w_win w) /\
  _zoomAnimationId (w_this (disable w)) = _zoomAnimationId (w_this w) /\
  _timeoutId (w_this (disable w)) = _timeoutId (w_this w) /\
  _isWheeling (w_this (disable w)) = _isWheeling (w_this w) /\
  w_map (disable w) = w_map w /\
  w_log (disable w) = w_log w.
Proof.
  split; [reflexivity|]. split; [reflexivity|].
  unfold disable. destruct (_enabled (w_this w)) eqn:E; cbn.
  - repeat split; try reflexivity.
    + discriminate.
    + rewrite andb_false_r. reflexivity.
  - rewrite E. cbn. repeat split; try reflexivity.
    rewrite andb_true_r. reflexivity.
Qed.

(** [removeHooks] itself is idempotent and touches only the listener. *)
Lemma removeHooks_idempotent (w : World M) :
  removeHooks (removeHooks w) = removeHooks w /\
  frames (w_win (removeHooks w)) = frames (w_win w) /\
  timers (w_win (removeHooks w)) = timers (w_win w).
Proof. repeat split. Qed.

(** After [disable()], wheel events no longer reach the handler. *)
Lemma disabled_ignores_wheel (e : WheelEvent) (w : World M) :
  _enabled (w_this w) = true ->
  dispatchWheel e (disable w) = disable w.
Proof.
  intros E. unfold disable, dispatchWheel. rewrite E. reflexivity.
Qed.

End Disabling.

(** C9, refuted as stated. Disabling in the middle of a gesture leaves the
    frame callback and the debounce timer pending; the callback then runs
    and moves the map of the disabled handler, and requests the next frame. *)
Lemma disable_leaves_callbacks_pending :
  let mid := run (host := SimpleMap.plain) [Wheel Scenario.notch] Scenario.start in
  let off := run (host := SimpleMap.plain) [Disable; Disable] mid in
  let next := run (host := SimpleMap.plain) [Frame] off in
  _enabled (w_this off) = false /\
  wheelListener (w_win off) = false /\
  frames (w_win off) = [1%nat] /\
  timers (w_win off) = [(2%nat, 200%nat)] /\
  filter is_view_write (w_log off) = [Call_stop] /\
  filter is_view_write (w_log next) =
    [Call_stop; Call_moveStart true false;
     Call_move (mkLatLng (-0) 5.0464682937507117e-18) 10] /\
  frames (w_win next) = [3%nat].
Proof.
  cbv zeta. repeat (apply conj); vm_compute; reflexivity.
Qed.


(** ** Convergence *)

Section Convergence.

Context {M : Type} {host : Host M}.

(** A property of worlds that every frame callback keeps, and under which
    it requests the next frame, holds after any number of refreshes, with
    the loop still running. *)
Lemma callbacks_invariant (P : World M -> Prop) :
  (forall w id, P w -> P (cancelAnimationFrame (Some id) w)) ->
  (forall w, P w -> P (_updateWheelZoom w) /\
                    frames (w_win (_updateWheelZoom w)) <> []) ->
  forall l w, P w ->
    P (fold_left (fun w id => runFrameCallback id w) l w) /\
    (frames (w_win w) <> [] ->
     frames (w_win (fold_left (fun w id => runFrameCallback id w) l w)) <> []).
Proof.
  intros Hcancel Htick. induction l as [|id l IH]; intros w HP; cbn.
  - auto.
  - assert (Hs : P (runFrameCallback id w) /\
                 (frames (w_win w) <> [] ->
                  frames (w_win (runFrameCallback id w)) <> [])).
    { unfold runFrameCallback. destruct (frame_pending id (w_win w)); [|auto].
      destruct (Htick _ (Hcancel w id HP)) as [HP' Hf]. auto. }
    destruct Hs as [HP' Hf]. destruct (IH _ HP') as [HP'' Hf'']. auto.
Qed.

Lemma ticks_invariant (P : World M -> Prop) :
  (forall w id, P w -> P (cancelAnimationFrame (Some id) w)) ->
  (forall w, P w -> P (_updateWheelZoom w) /\
                    frames (w_win (_updateWheelZoom w)) <> []) ->
  forall n w, P w -> loop_running w = true ->
    P (ticks n w) /\ loop_running (ticks n w) = true.
Proof.
  intros Hcancel Htick. induction n as [|n IH]; intros w HP Hr; cbn.
  - auto.
  - destruct (callbacks_invariant P Hcancel Htick (frames (w_win w)) w HP)
      as [HP' Hf].
    apply IH; [exact HP'|].
    unfold loop_running in *. unfold animationFrame.
    destruct (frames (w_win w)) as [|j r] eqn:E; [discriminate Hr|].
    destruct (frames (w_win (fold_left _ (j :: r) w))); [|reflexivity].
    exfalso. apply Hf; [discriminate|reflexivity].
Qed.

(** Frames never write the goal zoom. *)
Lemma tick_keeps_goal (w : World M) :
  _goalZoom (w_this (_updateWheelZoom w)) = _goalZoom (w_this w).
Proof.
  destruct (interfered w) eqn:Hi.
  - rewrite (tick_interfered w Hi).
    destruct (_zoomAnimationId (w_this w)); reflexivity.
  - destruct (converged w) eqn:Hc.
    + rewrite (tick_converged w Hi Hc).
      destruct (_zoomAnimationId (w_this w)), (_moved (w_this w)); reflexivity.
    + destruct (dead_center w) eqn:Hd.
      * rewrite (tick_dead_center w Hi Hc Hd). reflexivity.
      * rewrite (tick_commit w Hi Hc Hd). reflexivity.
Qed.

(** The pending callbacks after a frame: the handle the handler holds is
    cancelled when the frame stops the loop, a fresh one is added when it
    does not. *)
Lemma tick_frames (w : World M) :
  frames (w_win (_updateWheelZoom w)) =
    if interfered w || converged w then
      frames (w_win (cancelAnimationFrame (_zoomAnimationId (w_this w)) w))
    else frames (w_win w) ++ [nextHandle (w_win w)].
Proof.
  destruct (interfered w) eqn:Hi.
  - rewrite (tick_interfered w Hi). reflexivity.
  - destruct (converged w) eqn:Hc.
    + rewrite (tick_converged w Hi Hc).
      destruct (_zoomAnimationId (w_this w)), (_moved (w_this w)); reflexivity.
    + destruct (dead_center w) eqn:Hd.
      * rewrite (tick_dead_center w Hi Hc Hd). reflexivity.
      * rewrite (tick_commit w Hi Hc Hd). reflexivity.
Qed.

(** A frame stops the loop exactly when the view was interfered with or the
    stop condition holds; it then requests no frame, and on the stop
    condition it closes the move it had opened.  Every other frame requests
    the next one.  No frame changes the goal zoom. *)
Lemma frame_stops_or_requests (w : World M) :
  converged w =
    (JS.Math_abs (_goalZoom (w_this w) - getZoom (w_map w)) <? 0.005)
    && negb (_isWheeling (w_this w)) /\
  _goalZoom (w_this (_updateWheelZoom w)) = _goalZoom (w_this w) /\
  frames (w_win (_updateWheelZoom w)) =
    (if interfered w || converged w then
       frames (w_win (cancelAnimationFrame (_zoomAnimationId (w_this w)) w))
     else frames (w_win w) ++ [nextHandle (w_win w)]) /\
  w_log (_updateWheelZoom w) =
    w_log w ++
    (if interfered w then []
     else if converged w then
       (if _moved (w_this w) then [Call_moveEnd true] else [])
     else if dead_center w then []
     else commitCalls w).
Proof.
  split; [reflexivity|].
  split; [apply tick_keeps_goal|].
  split; [apply tick_frames|apply tick_log].
Qed.

Lemma ticks_idle (n : nat) (w : World M) :
  frames (w_win w) = [] -> ticks n w = w.
Proof.
  induction n as [|n IH]; intros Hf; [reflexivity|].
  cbn [ticks]. rewrite (animationFrame_idle w Hf). apply IH. exact Hf.
Qed.

(** With one callback pending, a refresh is one run of [_updateWheelZoom]. *)
Lemma animationFrame_single (w : World M) (id : nat) :
  frames (w_win w) = [id] ->
  animationFrame w = _updateWheelZoom (cancelAnimationFrame (Some id) w) /\
  frames (w_win (cancelAnimationFrame (Some id) w)) = [].
Proof.
  intros Hf. unfold animationFrame. rewrite Hf. cbn [fold_left].
  unfold runFrameCallback, frame_pending. rewrite Hf. cbn [existsb].
  rewrite Nat.eqb_refl. cbn [orb]. split; [reflexivity|].
  cbn. rewrite Hf. cbn. destruct (Nat.eq_dec id id); [reflexivity|congruence].
Qed.

(** ... after which the loop is stopped or has one callback pending again. *)
Lemma frame_outcome (w : World M) (id : nat) :
  frames (w_win w) = [id] ->
  frames (w_win (animationFrame w)) =
    if interfered w || converged w then [] else [nextHandle (w_win w)].
Proof.
  intros Hf. destruct (animationFrame_single w id Hf) as [-> Hnil].
  rewrite tick_frames.
  change (interfered (cancelAnimationFrame (Some id) w)) with (interfered w).
  change (converged (cancelAnimationFrame (Some id) w)) with (converged w).
  destruct (interfered w || converged w).
  - destruct (_zoomAnimationId (w_this (cancelAnimationFrame (Some id) w)));
      cbn -[remove]; [|exact Hnil].
    cbn -[remove] in Hnil. rewrite Hnil. reflexivity.
  - rewrite Hnil. reflexivity.
Qed.

Lemma callback_keeps_goal (id : nat) (w : World M) :
  _goalZoom (w_this (runFrameCallback id w)) = _goalZoom (w_this w).
Proof.
  unfold runFrameCallback. destruct (frame_pending id (w_win w)); [|reflexivity].
  rewrite tick_keeps_goal. reflexivity.
Qed.

Lemma animationFrame_keeps_goal (w : World M) :
  _goalZoom (w_this (animationFrame w)) = _goalZoom (w_this w).
Proof.
  unfold animationFrame. generalize (frames (w_win w)). intros l. revert w.
  induction l as [|id l IH]; intros w; [reflexivity|].
  cbn [fold_left]. rewrite IH. apply callback_keeps_goal.
Qed.

Lemma ticks_keep_goal (n : nat) (w : World M) :
  _goalZoom (w_this (ticks n w)) = _goalZoom (w_this w).
Proof.
  revert w. induction n as [|n IH]; intros w; [reflexivity|].
  cbn [ticks]. rewrite IH. apply animationFrame_keeps_goal.
Qed.

(** C1 as the code has it. Frames never change the goal zoom, and the loop
    stops right after the first frame that finds the view interfered with
    or the stop condition true (the gesture ended and
    [|goalZoom - currentViewZoom| < 0.005]), not before: after [n] frames it
    has stopped exactly when one of the first [n] frames found that.  (That
    such a frame ever comes is not guaranteed.) *)
Theorem loop_stops_exactly_on_convergence (w : World M) (id n : nat) :
  frames (w_win w) = [id] ->
  _goalZoom (w_this (ticks n w)) = _goalZoom (w_this w) /\
  (loop_running (ticks n w) = false <->
   exists k, k < n /\
     (interfered (ticks k w)
      || (JS.Math_abs (_goalZoom (w_this (ticks k w)) - getZoom (w_map (ticks k w)))
            <? 0.005)
         && negb (_isWheeling (w_this (ticks k w)))) = true).
Proof.
  intros Hf. split; [apply ticks_keep_goal|].
  revert w id Hf. induction n as [|n IH]; intros w id Hf.
  - cbn [ticks]. unfold loop_running. rewrite Hf. split; [discriminate|].
    intros (k & Hk & _). lia.
  - cbn [ticks]. pose proof (frame_outcome w id Hf) as Hout.
    fold (zoomDiff w) in *.
    destruct (interfered w || converged w) eqn:Hstop.
    + rewrite (ticks_idle n _ Hout). unfold loop_running at 1. rewrite Hout.
      split; [|reflexivity]. intros _. exists O. split; [lia|exact Hstop].
    + rewrite (IH _ _ Hout). split.
      * intros (k & Hk & Hs). exists (S k). split; [lia|exact Hs].
      * intros (k & Hk & Hs). destruct k as [|k].
        -- cbn [ticks] in Hs. unfold converged, zoomDiff in Hstop. congruence.
        -- exists k. split; [lia|exact Hs].
Qed.

End Convergence.

(** ** The anchors of a gesture *)

Section Anchors.

Context {M : Type} {host : Host M}.

Lemma tick_keeps_anchors (w : World M) :
  anchors (_updateWheelZoom w) = anchors w.
Proof.
  destruct (interfered w) eqn:Hi.
  - rewrite (tick_interfered w Hi).
    destruct (_zoomAnimationId (w_this w)); reflexivity.
  - destruct (converged w) eqn:Hc.
    + rewrite (tick_converged w Hi Hc).
      destruct (_zoomAnimationId (w_this w)), (_moved (w_this w)); reflexivity.
    + destruct (dead_center w) eqn:Hd.
      * rewrite (tick_dead_center w Hi Hc Hd). reflexivity.
      * rewrite (tick_commit w Hi Hc Hd). reflexivity.
Qed.

Lemma animationFrame_keeps_anchors (w : World M) :
  anchors (animationFrame w) = anchors w.
Proof.
  unfold animationFrame. generalize (frames (w_win w)). intros l. revert w.
  induction l as [|id l IH]; intros w; [reflexivity|].
  cbn [fold_left]. rewrite IH. unfold runFrameCallback.
  destruct (frame_pending id (w_win w)); [|reflexivity].
  rewrite tick_keeps_anchors. reflexivity.
Qed.

(** The centre pixel and the two geographic anchors are those captured by
    [_onWheelStart]; nothing but the start of a gesture changes them. *)
Lemma anchors_change_only_at_gesture_start (i : Input) (w : World M) :
  starts_gesture w i = false -> anchors (step w i) = anchors w.
Proof.
  destruct i as [e|id| |f| |]; cbn [step starts_gesture]; intros Hs.
  - unfold dispatchWheel. destruct (wheelListener (w_win w)); [|reflexivity].
    cbn in Hs. unfold _onWheelScroll. rewrite Hs. rewrite onWheeling_result.
    reflexivity.
  - unfold fireTimer. destruct (timer_pending id (w_win w)); reflexivity.
  - apply animationFrame_keeps_anchors.
  - reflexivity.
  - unfold enable. destruct (_enabled (w_this w)); reflexivity.
  - unfold disable. destruct (_enabled (w_this w)); reflexivity.
Qed.

Lemma gesture_start_captures (e : WheelEvent) (w : World M) :
  anchors (_onWheelStart e w) =
    (divideBy (getSize (w_map w)) 2,
     containerPointToLatLng (w_map w) (divideBy (getSize (w_map w)) 2),
     containerPointToLatLng (w_map w) (_mouseEventToContainerPoint e (w_map w))).
Proof. rewrite onWheelStart_result. reflexivity. Qed.

End Anchors.

(** ** Gestures that never converge *)

Section QuietFrames.

Context {M : Type} {host : Host M}.

Lemma ticks_run (n : nat) (w : World M) : ticks n w = run (repeat Frame n) w.
Proof.
  revert w. induction n as [|n IH]; intros w; [reflexivity|].
  cbn [ticks repeat]. rewrite IH. reflexivity.
Qed.

Lemma frames_are_quiet (n : nat) :
  forallb (quiet (M := M)) (repeat Frame n) = true.
Proof. induction n as [|n IH]; [reflexivity|exact IH]. Qed.

End QuietFrames.

Lemma steady_tests (w : World SimpleMap.t) :
  Stuck.steady w ->
  interfered (host := SimpleMap.plain) w = false /\
  converged (host := SimpleMap.plain) w = false /\
  dead_center w = false /\
  (JS.Math_abs (zoomDiff (host := SimpleMap.plain) w) <? 0.005) = false /\
  Stuck.core (_updateWheelZoom (host := SimpleMap.plain) w) = Stuck.core w.
Proof.
  unfold Stuck.steady. intros E.
  assert (Hi : interfered (host := SimpleMap.plain) w = false /\
               converged (host := SimpleMap.plain) w = false /\
               dead_center w = false /\
               (JS.Math_abs (zoomDiff (host := SimpleMap.plain) w) <? 0.005)
                 = false).
  { open_world w. vm_compute in E.
    injection E as -> -> -> -> -> -> _ -> _.
    repeat apply conj; vm_compute; reflexivity. }
  destruct Hi as (Hi & Hc & Hd & Hfar).
  repeat apply conj; try assumption.
  rewrite (tick_commit w Hi Hc Hd).
  open_world w. vm_compute in E.
  injection E as -> -> -> -> -> -> -> -> ->.
  vm_compute. reflexivity.
Qed.

Lemma steady_kept_by_cancel (w : World SimpleMap.t) (id : nat) :
  Stuck.steady w -> Stuck.steady (cancelAnimationFrame (Some id) w).
Proof. intros E. exact E. Qed.

Lemma steady_kept_by_frame (w : World SimpleMap.t) :
  Stuck.steady w ->
  Stuck.steady (_updateWheelZoom (host := SimpleMap.plain) w) /\
  frames (w_win (_updateWheelZoom (host := SimpleMap.plain) w)) <> [].
Proof.
  intros E. destruct (steady_tests w E) as (Hi & Hc & Hd & _ & Ecore).
  split.
  - unfold Stuck.steady. rewrite Ecore. exact E.
  - rewrite tick_frames, Hi, Hc. cbn. intros N.
    apply app_eq_nil in N. destruct N; discriminate.
Qed.

(** After the ten notches up, no number of frames brings the view within
    reach of the goal, and the loop keeps running. *)
Lemma stuck_never_within_reach (n : nat) :
  (JS.Math_abs (zoomDiff (host := SimpleMap.plain)
                         (ticks (host := SimpleMap.plain) n Stuck.world))
     <? 0.005) = false /\
  loop_running (ticks (host := SimpleMap.plain) n Stuck.world) = true.
Proof.
  destruct (ticks_invariant (host := SimpleMap.plain) Stuck.steady
              steady_kept_by_cancel steady_kept_by_frame
              n Stuck.world eq_refl) as [E Hr]; [vm_compute; reflexivity|].
  destruct (steady_tests _ E) as (_ & _ & _ & Hfar & _).
  auto.
Qed.

(** Nor does it with the cursor at the view centre. *)
Lemma centred_never_within_reach (n : nat) :
  (JS.Math_abs (zoomDiff (host := SimpleMap.plain)
                         (ticks (host := SimpleMap.plain) n Scenario.centred_far))
     <? 0.005) = false /\
  loop_running (ticks (host := SimpleMap.plain) n Scenario.centred_far) = true.
Proof.
  assert (Hr : loop_running Scenario.centred_far = true)
    by (vm_compute; reflexivity).
  assert (Hi : interfered (host := SimpleMap.plain) Scenario.centred_far = false)
    by (vm_compute; reflexivity).
  assert (Hd : dead_center Scenario.centred_far = true)
    by (vm_compute; reflexivity).
  assert (Hc : converged (host := SimpleMap.plain) Scenario.centred_far = false)
    by (vm_compute; reflexivity).
  assert (Hfar : (JS.Math_abs (zoomDiff (host := SimpleMap.plain)
                                        Scenario.centred_far) <? 0.005) = false)
    by (vm_compute; reflexivity).
  rewrite ticks_run.
  destruct (dead_center_quiet_run (host := SimpleMap.plain)
              (repeat Frame n) Scenario.centred_far Hr Hi Hd Hc Hfar
              (frames_are_quiet n)) as [Es Hr'].
  destruct (scene_tests (host := SimpleMap.plain) _ _ Es) as (_ & _ & Ez).
  rewrite Ez. split; [exact Hfar|exact Hr'].
Qed.

(** C1, refuted as stated. Three gestures on the small host, each ended
    (the debounce timer has expired) with the view more than [0.005] from
    the goal:
    - ten notches up at the view centre: no frame ever moves the map;
    - ten notches up off the centre: every frame moves the map to zoom
      [floor(1000.9) / 100 = 10] again;
    in both, after any number of frames the view is not within [0.005] of
    the goal and a frame callback is still pending;
    - and [|zoomDiff|] grows from one frame to the next: from zoom [10.005]
      with goal [10.011], the frame after the wheel event moves the map to
      zoom [floor(1000.68) / 100 = 10] (whether or not the debounce timer
      has expired by then). *)
Lemma gestures_that_never_converge :
  (_isWheeling (w_this Scenario.centred_far) = false /\
   forall n : nat,
     let w := ticks (host := SimpleMap.plain) n Scenario.centred_far in
     (JS.Math_abs (zoomDiff (host := SimpleMap.plain) w) <? 0.005) = false /\
     loop_running w = true) /\
  (_isWheeling (w_this Stuck.world) = false /\
   forall n : nat,
     let w := ticks (host := SimpleMap.plain) n Stuck.world in
     (JS.Math_abs (zoomDiff (host := SimpleMap.plain) w) <? 0.005) = false /\
     loop_running w = true) /\
  (let w := Stuck.off_grid in
   let w' := animationFrame (host := SimpleMap.plain) w in
   (JS.Math_abs (zoomDiff (host := SimpleMap.plain) w)
      <? JS.Math_abs (zoomDiff (host := SimpleMap.plain) w')) = true) /\
  (let w := gestureEnds Stuck.off_grid in
   let w' := animationFrame (host := SimpleMap.plain) w in
   (JS.Math_abs (zoomDiff (host := SimpleMap.plain) w)
      <? JS.Math_abs (zoomDiff (host := SimpleMap.plain) w')) = true).
Proof.
  cbv zeta. split; [split|split; [split|split]].
  - vm_compute. reflexivity.
  - intros n. apply centred_never_within_reach.
  - vm_compute. reflexivity.
  - intros n. apply stuck_never_within_reach.
  - vm_compute. reflexivity.
  - vm_compute. reflexivity.
Qed.

(** Zooming out does converge on the same map: ten notches down from zoom
    10 reach the goal [9.97] in three frames and the fourth stops the loop. *)
Example zoom_out_converges :
  List.map (fun n => SimpleMap.zoom
                       (w_map (ticks (host := SimpleMap.plain) n Scenario.zoomed_out)))
           [0; 1; 2; 3; 4]%nat
    = [10; 9.99; 9.98; 9.97; 9.97] /\
  loop_running (ticks (host := SimpleMap.plain) 3 Scenario.zoomed_out) = true /\
  loop_running (ticks (host := SimpleMap.plain) 4 Scenario.zoomed_out) = false.
Proof.
  repeat apply conj; vm_compute; reflexivity.
Qed.

(** Three frames of a gesture in centre mode: every commit has the centre
    captured at gesture start. *)
Example center_mode_commits :
  let w := run (host := SimpleMap.plain) [Wheel Scenario.big_notch; Frame; Frame; Frame]
               Scenario.start_center_mode in
  _startLatLng (w_this w) = mkLatLng (-0) 0 /\
  filter is_commit (w_log w) =
    [Call_move (mkLatLng (-0) 0) 10.09; Call_move (mkLatLng (-0) 0) 10.15;
     Call_move (mkLatLng (-0) 0) 10.19].
Proof. cbv zeta. split; vm_compute; reflexivity. Qed.

(** The same in cursor mode: at the zoom of each commit, the point that was
    under the cursor at gesture start projects 100 pixels right of the
    committed centre, where the cursor is. *)
Example cursor_mode_commits :
  let w := run (host := SimpleMap.plain) [Wheel Scenario.big_notch; Frame; Frame; Frame]
               Scenario.start in
  cursorOffset w = mkPoint 100 0 /\
  List.map (fun call => match call with Call_move _ z => z | _ => 0 end)
           (filter is_commit (w_log w)) = [10.09; 10.15; 10.19] /\
  Scenario.offsets_from (_wheelStartLatLng (w_this w)) (w_log w) =
    [mkPoint 100 0; mkPoint 100 0; mkPoint 100 0].
Proof. cbv zeta. repeat apply conj; vm_compute; reflexivity. Qed.

(** Deltas far past either bound: the goal ends on the bound. *)
Example goal_clamped_both_ways :
  List.map (fun inputs => _goalZoom (w_this (run (host := SimpleMap.plain) inputs
                                                 Scenario.start)))
           [[Wheel Scenario.hard_up]; [Wheel Scenario.hard_down];
            [Wheel Scenario.hard_up; Frame; Wheel Scenario.hard_down];
            [Wheel Scenario.hard_down; Wheel Scenario.notch]]
    = [18; 0; 0; 0.003].
Proof. vm_compute. reflexivity. Qed.

(** ** The theorems at concrete inputs *)

(** The loop of the zoom-out gesture: stopped after four frames, the third
    of which left the view within reach of the goal. *)
Lemma loop_stops_exactly_on_convergence_witness :
  let w := Scenario.zoomed_out in
  frames (w_win w) = [1%nat] /\
  _goalZoom (w_this (ticks (host := SimpleMap.plain) 4 w)) = _goalZoom (w_this w) /\
  loop_running (ticks (host := SimpleMap.plain) 4 w) = false /\
  exists k, k < 4 /\
    (interfered (host := SimpleMap.plain) (ticks (host := SimpleMap.plain) k w)
     || (JS.Math_abs (_goalZoom (w_this (ticks (host := SimpleMap.plain) k w))
                      - SimpleMap.zoom (w_map (ticks (host := SimpleMap.plain) k w)))
           <? 0.005)
        && negb (_isWheeling (w_this (ticks (host := SimpleMap.plain) k w)))) = true.
Proof.
  cbv zeta.
  assert (Hf : frames (w_win Scenario.zoomed_out) = [1%nat])
    by (vm_compute; reflexivity).
  assert (Hs : loop_running (ticks (host := SimpleMap.plain) 4 Scenario.zoomed_out)
               = false) by (vm_compute; reflexivity).
  destruct (loop_stops_exactly_on_convergence (host := SimpleMap.plain)
              Scenario.zoomed_out 1 4 Hf) as [Eg Hiff].
  split; [exact Hf|]. split; [exact Eg|]. split; [exact Hs|].
  apply Hiff. exact Hs.
Defined.

(** The small host's [_limitZoom] answers within the bounds [0] and [18] of
    the scenario map, whatever its other fields are. *)
Lemma SimpleMap_limitZoom_in_range (m : SimpleMap.t) (z : float) :
  SimpleMap.minZoom m = 0 -> SimpleMap.maxZoom m = 18 ->
  PrimFloat.is_nan z = false ->
  (getMinZoom (Host := SimpleMap.plain) m
     <=? _limitZoom (Host := SimpleMap.plain) m z) = true /\
  (_limitZoom (Host := SimpleMap.plain) m z
     <=? getMaxZoom (Host := SimpleMap.plain) m) = true.
Proof.
  intros Emin Emax Nz. cbn. rewrite Emin, Emax.
  unfold SimpleMap.Math_min. rewrite Nz.
  change (PrimFloat.is_nan 18 || false) with false. cbv iota.
  destruct (z <? 18) eqn:Hz; unfold SimpleMap.Math_max.
  - rewrite Nz. change (PrimFloat.is_nan 0 || false) with false. cbv iota.
    destruct (0 <? z) eqn:H0.
    + split; apply FloatFacts.ltb_true_leb; assumption.
    + split; reflexivity.
  - split; reflexivity.
Qed.

(** A wheel event far past the upper bound: the goal is clamped to 18. *)
Lemma goal_zoom_stays_in_range_witness :
  let inputs := [Wheel Scenario.notch; Frame] in
  let w' := run (host := SimpleMap.plain) (inputs ++ [Wheel Scenario.hard_up])
                Scenario.start in
  wheelListener (w_win (run (host := SimpleMap.plain) inputs Scenario.start)) = true /\
  PrimFloat.is_nan (_goalZoom (w_this w')) = false /\
  _goalZoom (w_this w') = 18 /\
  (getMinZoom (Host := SimpleMap.plain) (w_map w') <=? _goalZoom (w_this w')) = true /\
  (_goalZoom (w_this w') <=? getMaxZoom (Host := SimpleMap.plain) (w_map w')) = true.
Proof.
  cbv zeta.
  split; [vm_compute; reflexivity|]. split; [vm_compute; reflexivity|].
  split; [vm_compute; reflexivity|].
  apply (goal_zoom_stays_in_range (host := SimpleMap.plain)
           [Wheel Scenario.notch; Frame] Scenario.hard_up Scenario.start).
  - intros z Nz. apply SimpleMap_limitZoom_in_range;
      [vm_compute; reflexivity|vm_compute; reflexivity|exact Nz].
  - vm_compute. reflexivity.
  - vm_compute. reflexivity.
Defined.

(** The first frame from zoom [10.005] toward [10.011] eases to [10]. *)
Lemma next_zoom_is_eased_witness :
  interfered (host := SimpleMap.plain) Stuck.off_grid = false /\
  converged (host := SimpleMap.plain) Stuck.off_grid = false /\
  _zoom (w_this (_updateWheelZoom (host := SimpleMap.plain) Stuck.off_grid)) = 10.
Proof.
  assert (Hi : interfered (host := SimpleMap.plain) Stuck.off_grid = false)
    by (vm_compute; reflexivity).
  assert (Hc : converged (host := SimpleMap.plain) Stuck.off_grid = false)
    by (vm_compute; reflexivity).
  split; [exact Hi|]. split; [exact Hc|].
  destruct (next_zoom_is_eased (host := SimpleMap.plain) Stuck.off_grid Hi Hc)
    as [E _].
  rewrite E. vm_compute. reflexivity.
Defined.

(** C6, as first stated, fails below zoom zero.  On a map at zoom 0 whose
    range starts at -5, one notch down sets the goal to [-0.003]; the eased
    zoom of the next frame is [-0.0009], whose truncation to two decimals is
    [-0], and the frame moves the map to zoom [-0.01], past the goal.  From
    zoom [-1] towards [-1.01] the eased zoom is [-1.003]: truncated [-1],
    floored [-1.01]. *)
Lemma eased_zoom_is_floored_not_truncated :
  let w := BelowZero.gesture in
  let current := SimpleMap.zoom (w_map w) in
  let goal := _goalZoom (w_this w) in
  let eased := current + (goal - current) * 0.3 in
  let after := _updateWheelZoom (host := SimpleMap.plain) w in
  (interfered (host := SimpleMap.plain) w = false /\
   converged (host := SimpleMap.plain) w = false /\
   dead_center w = false) /\
  (current = 0 /\ goal = -0.003 /\ eased = -0.00089999999999999998) /\
  JS.Math_trunc (eased * 100) / 100 = -0 /\
  _zoom (w_this after) = -0.01 /\
  BelowZero.committed_zooms (w_log after) = [-0.01] /\
  SimpleMap.zoom (w_map after) = -0.01 /\
  (SimpleMap.zoom (w_map after) <? goal) = true /\
  (easedZoom (-1) (-1.01) = -1.01 /\
   JS.Math_trunc ((-1 + (-1.01 - -1) * 0.3) * 100) / 100 = -1).
Proof.
  cbv zeta. repeat apply conj; vm_compute; reflexivity.
Qed.

(** A frame of a gesture with the cursor at the centre of the view. *)
Lemma dead_center_frame_is_skipped_witness :
  dead_center Scenario.centred = true /\
  interfered (host := SimpleMap.plain) Scenario.centred = false /\
  converged (host := SimpleMap.plain) Scenario.centred = false /\
  w_map (_updateWheelZoom (host := SimpleMap.plain) Scenario.centred)
    = w_map Scenario.centred /\
  w_log (_updateWheelZoom (host := SimpleMap.plain) Scenario.centred)
    = w_log Scenario.centred /\
  frames (w_win (_updateWheelZoom (host := SimpleMap.plain) Scenario.centred))
    = frames (w_win Scenario.centred) ++ [nextHandle (w_win Scenario.centred)].
Proof.
  assert (Hd : dead_center Scenario.centred = true)
    by (vm_compute; reflexivity).
  assert (Hi : interfered (host := SimpleMap.plain) Scenario.centred = false)
    by (vm_compute; reflexivity).
  assert (Hc : converged (host := SimpleMap.plain) Scenario.centred = false)
    by (vm_compute; reflexivity).
  split; [exact Hd|]. split; [exact Hi|]. split; [exact Hc|].
  destruct (dead_center_frame_is_skipped (host := SimpleMap.plain)
              Scenario.centred Hd) as [_ Hskip].
  destruct (Hskip Hi Hc) as (Em & El & Ef & _).
  split; [exact Em|]. split; [exact El|exact Ef].
Defined.

(** Another agent moved the view to zoom 12: the next refresh stops the
    loop, and a further wheel event of the gesture, its end and another
    refresh leave the map alone. *)
Lemma interference_stops_the_loop_witness :
  let later := [Frame; Wheel Scenario.notch; TimerExpires 4; Frame] in
  let after := run (host := SimpleMap.plain) (Frame :: later) Scenario.intruded in
  interfered (host := SimpleMap.plain) Scenario.intruded = true /\
  within_gesture (host := SimpleMap.plain) later
    (animationFrame (host := SimpleMap.plain) Scenario.intruded) = true /\
  loop_running Scenario.intruded = true /\
  _isWheeling (w_this after) = false /\
  w_map after = w_map Scenario.intruded /\
  filter is_view_write (w_log after)
    = filter is_view_write (w_log Scenario.intruded) /\
  frames (w_win after) = [].
Proof.
  cbv zeta.
  assert (Hi : interfered (host := SimpleMap.plain) Scenario.intruded = true)
    by (vm_compute; reflexivity).
  assert (Hq : within_gesture (host := SimpleMap.plain)
                 [Frame; Wheel Scenario.notch; TimerExpires 4; Frame]
                 (animationFrame (host := SimpleMap.plain) Scenario.intruded)
               = true) by (vm_compute; reflexivity).
  split; [exact Hi|]. split; [exact Hq|].
  split; [vm_compute; reflexivity|]. split; [vm_compute; reflexivity|].
  destruct (interference_stops_the_loop (host := SimpleMap.plain)
              Scenario.intruded
              [Frame; Wheel Scenario.notch; TimerExpires 4; Frame] Hi Hq)
    as (_ & _ & _ & Em & El & Ef).
  split; [exact Em|]. split; [exact El|exact Ef].
Defined.

(** Ten notches at the centre of the view, then refreshes and a timer
    expiry: the loop is still running and the map has not moved. *)
Lemma dead_center_loop_never_stops_witness :
  let inputs := [Frame; Frame; TimerExpires 7; Frame] in
  loop_running Scenario.centred_far = true /\
  interfered (host := SimpleMap.plain) Scenario.centred_far = false /\
  dead_center Scenario.centred_far = true /\
  (0.005 <=? JS.Math_abs (zoomDiff (host := SimpleMap.plain) Scenario.centred_far))
    = true /\
  loop_running (run (host := SimpleMap.plain) inputs Scenario.centred_far) = true /\
  w_map (run (host := SimpleMap.plain) inputs Scenario.centred_far)
    = w_map Scenario.centred_far.
Proof.
  cbv zeta.
  assert (Hr : loop_running Scenario.centred_far = true)
    by (vm_compute; reflexivity).
  assert (Hi : interfered (host := SimpleMap.plain) Scenario.centred_far = false)
    by (vm_compute; reflexivity).
  assert (Hd : dead_center Scenario.centred_far = true)
    by (vm_compute; reflexivity).
  assert (Hfar : (0.005 <=? JS.Math_abs (zoomDiff (host := SimpleMap.plain)
                                                  Scenario.centred_far)) = true)
    by (vm_compute; reflexivity).
  split; [exact Hr|]. split; [exact Hi|]. split; [exact Hd|]. split; [exact Hfar|].
  destruct (dead_center_loop_never_stops (host := SimpleMap.plain)
              Scenario.centred_far [Frame; Frame; TimerExpires 7; Frame]
              Hr Hi Hd Hfar eq_refl) as (R1 & _ & R3 & _).
  split; [exact R1|exact R3].
Defined.

(** * More of the handler's behaviour *)

(** ** What every frame and every run keeps *)

Section Preservation.

Context {M : Type} {host : Host M}.

(** A property kept by the cancellation of a callback and by
    [_updateWheelZoom] is kept by a display refresh. *)
Lemma animationFrame_preserves (P : World M -> Prop) :
  (forall w id, P w -> P (cancelAnimationFrame (Some id) w)) ->
  (forall w, P w -> P (_updateWheelZoom w)) ->
  forall w, P w -> P (animationFrame w).
Proof.
  intros Hc Ht w Hw. unfold animationFrame.
  remember (frames (w_win w)) as l eqn:El. clear El.
  revert w Hw. induction l as [|id l IH]; intros w Hw; cbn; [exact Hw|].
  apply IH. unfold runFrameCallback.
  destruct (frame_pending id (w_win w)); [apply Ht, Hc, Hw | exact Hw].
Qed.

Lemma run_preserves (P : World M -> Prop) :
  (forall w i, P w -> P (step w i)) ->
  forall inputs w, P w -> P (run inputs w).
Proof.
  intros Hs inputs. unfold run.
  induction inputs as [|i inputs IH]; intros w Hw; cbn; [exact Hw|].
  apply IH, Hs, Hw.
Qed.

(** The part of the state that belongs to the wheel events: no frame
    touches it. *)
Lemma tick_keeps_wheel_state (w : World M) :
  let w' := _updateWheelZoom w in
  timers (w_win w') = timers (w_win w) /\
  wheelListener (w_win w') = wheelListener (w_win w) /\
  _isWheeling (w_this w') = _isWheeling (w_this w) /\
  _timeoutId (w_this w') = _timeoutId (w_this w) /\
  _wheelMousePosition (w_this w') = _wheelMousePosition (w_this w) /\
  _enabled (w_this w') = _enabled (w_this w).
Proof.
  cbv zeta. destruct (interfered w) eqn:Hi.
  - rewrite (tick_interfered w Hi).
    destruct (_zoomAnimationId (w_this w)); cbn; auto 10.
  - destruct (converged w) eqn:Hc.
    + rewrite (tick_converged w Hi Hc).
      destruct (_zoomAnimationId (w_this w)), (_moved (w_this w)); cbn; auto 10.
    + destruct (dead_center w) eqn:Hd.
      * rewrite (tick_dead_center w Hi Hc Hd). cbn. auto 10.
      * rewrite (tick_commit w Hi Hc Hd). cbn. auto 10.
Qed.

(** A wheel event that reaches the handler: the two methods, one after the
    other. *)
Lemma onWheelScroll_result (e : WheelEvent) (w : World M) :
  _onWheelScroll e w =
    wheeled e (if _isWheeling (w_this w) then w else gestureStarted e w).
Proof.
  unfold _onWheelScroll. rewrite onWheeling_result.
  destruct (_isWheeling (w_this w)); cbn [negb];
    rewrite ?onWheelStart_result; reflexivity.
Qed.

End Preservation.

(** ** The debounce timer *)

Section Debounce.

Context {M : Type} {host : Host M}.

Lemma debounce_ok_tick (w : World M) :
  debounce_ok (_updateWheelZoom w) = debounce_ok w.
Proof.
  destruct (tick_keeps_wheel_state w) as (Et & _ & Ew & Ei & _).
  unfold debounce_ok. rewrite Et, Ew, Ei. reflexivity.
Qed.

Lemma debounce_ok_wheel (e : WheelEvent) (w : World M) :
  debounce_ok w = true -> debounce_ok (dispatchWheel e w) = true.
Proof.
  intros H. unfold dispatchWheel.
  destruct (wheelListener (w_win w)) eqn:El; [|exact H].
  rewrite onWheelScroll_result.
  open_world w. destruct win as [listener fr tm next].
  unfold debounce_ok in H. cbn in H.
  destruct wheeling.
  - destruct tm as [|[id ms] [|t tm]]; cbn in H; try discriminate.
    destruct timerId as [held|]; cbn in H; try discriminate.
    apply andb_prop in H. destruct H as [H _].
    apply Nat.eqb_eq in H. subst held.
    unfold debounce_ok, wheeled, clearTimeout. cbn.
    rewrite !Nat.eqb_refl. cbn. rewrite Nat.eqb_refl. reflexivity.
  - destruct tm as [|[id ms] [|t tm]]; cbn in H; try discriminate.
    unfold debounce_ok, wheeled, gestureStarted, requested, clearTimeout.
    destruct timerId as [held|]; cbn; rewrite Nat.eqb_refl; reflexivity.
Qed.

Lemma debounce_ok_timer (id : nat) (w : World M) :
  debounce_ok w = true -> debounce_ok (fireTimer id w) = true.
Proof.
  intros H. unfold fireTimer.
  destruct (timer_pending id (w_win w)) eqn:Ep; [|exact H].
  open_world w. destruct win as [listener fr tm next].
  unfold debounce_ok in H. unfold timer_pending in Ep. cbn in H, Ep.
  destruct tm as [|[id0 ms] [|t tm]]; cbn in H, Ep; try discriminate.
  rewrite orb_false_r in Ep.
  unfold debounce_ok, _onWheelEnd, clearTimeout. cbn. rewrite Ep. reflexivity.
Qed.

Lemma debounce_ok_step (i : Input) (w : World M) :
  debounce_ok w = true -> debounce_ok (step w i) = true.
Proof.
  intros H. destruct i as [e|id| |f| |]; cbn [step].
  - apply debounce_ok_wheel, H.
  - apply debounce_ok_timer, H.
  - apply (animationFrame_preserves (fun w => debounce_ok w = true)).
    + intros w0 id H0. exact H0.
    + intros w0 H0. rewrite debounce_ok_tick. exact H0.
    + exact H.
  - exact H.
  - unfold enable. destruct (_enabled (w_this w)); exact H.
  - unfold disable. destruct (_enabled (w_this w)); exact H.
Qed.

(** X1. Whatever happens to the page after the handler is created, the
    debounce timer and the wheeling flag agree: at most one timer of the
    handler is pending, it is a 200 ms timer whose handle the handler
    holds, and the handler is wheeling exactly while that timer is
    pending. *)
Theorem debounce_timer_tracks_gesture (map : M) (inputs : list Input) :
  let w := run inputs (freshWorld map) in
  debounce_ok w = true /\
  (List.length (timers (w_win w)) <= 1)%nat /\
  _isWheeling (w_this w) = negb (Nat.eqb (List.length (timers (w_win w))) 0) /\
  (forall id ms, In (id, ms) (timers (w_win w)) ->
     ms = 200%nat /\ _timeoutId (w_this w) = Some id).
Proof.
  cbv zeta.
  assert (H : debounce_ok (run inputs (freshWorld map)) = true).
  { apply (run_preserves (fun w => debounce_ok w = true)).
    - intros w i Hw. apply debounce_ok_step, Hw.
    - reflexivity. }
  split; [exact H|].
  unfold debounce_ok in H.
  destruct (timers (w_win (run inputs (freshWorld map)))) as [|[id ms] [|t tm]];
    try discriminate.
  - cbn. split; [lia|]. split; [|intros ? ? []].
    destruct (_isWheeling _); [discriminate|reflexivity].
  - cbn. apply andb_prop in H. destruct H as [H Hms].
    apply andb_prop in H. destruct H as [Hw Hid].
    split; [lia|]. split; [exact Hw|].
    intros id' ms' [E|[]]. injection E as <- <-.
    apply Nat.eqb_eq in Hms. split; [exact Hms|].
    destruct (_timeoutId _) as [held|]; [|discriminate].
    apply Nat.eqb_eq in Hid. congruence.
Qed.

End Debounce.

(** ** Move transactions *)

Section Transactions.

Context {M : Type} {host : Host M}.

Lemma transaction_app (open : bool) (l1 l2 : list Effect) :
  transaction open (l1 ++ l2) =
    match transaction open l1 with
    | Some open' => transaction open' l2
    | None => None
    end.
Proof.
  revert open. induction l1 as [|eff l1 IH]; intros open; cbn; [reflexivity|].
  destruct eff, open; cbn; auto.
Qed.

Lemma transactions_ok_wheel (e : WheelEvent) (w : World M) :
  transactions_ok w = true -> transactions_ok (dispatchWheel e w) = true.
Proof.
  intros H. unfold dispatchWheel.
  destruct (wheelListener (w_win w)); [|exact H].
  rewrite onWheelScroll_result. unfold transactions_ok in *.
  destruct (transaction false (w_log w)) as [open|] eqn:Et; [|discriminate].
  destruct (_isWheeling (w_this w)).
  - unfold wheeled. cbn. rewrite transaction_app, Et. cbn. exact H.
  - unfold wheeled, gestureStarted. cbn.
    rewrite !transaction_app, Et.
    destruct (_panAnim (stop (w_map w))); reflexivity.
Qed.

Lemma transactions_ok_tick (w : World M) :
  transactions_ok w = true -> transactions_ok (_updateWheelZoom w) = true.
Proof.
  intros H. unfold transactions_ok in *.
  destruct (transaction false (w_log w)) as [open|] eqn:Et; [|discriminate].
  destruct (interfered w) eqn:Hi.
  - rewrite (tick_interfered w Hi).
    destruct (_zoomAnimationId (w_this w)); cbn; rewrite Et; exact H.
  - destruct (converged w) eqn:Hc.
    + rewrite (tick_converged w Hi Hc).
      destruct (_moved (w_this w)) eqn:Em.
      * cbn in H. subst open. cbn. rewrite transaction_app, Et. reflexivity.
      * destruct (_zoomAnimationId (w_this w)); cbn; rewrite Et, Em; reflexivity.
    + destruct (dead_center w) eqn:Hd.
      * rewrite (tick_dead_center w Hi Hc Hd). cbn. rewrite Et. exact H.
      * rewrite (tick_commit w Hi Hc Hd). cbn.
        rewrite transaction_app, Et. unfold commitCalls.
        destruct (_moved (w_this w)); [cbn in H; subst open|]; reflexivity.
Qed.

Lemma transactions_ok_step (i : Input) (w : World M) :
  transactions_ok w = true -> transactions_ok (step w i) = true.
Proof.
  intros H. destruct i as [e|id| |f| |]; cbn [step].
  - apply transactions_ok_wheel, H.
  - unfold fireTimer. destruct (timer_pending id (w_win w)); exact H.
  - apply (animationFrame_preserves (fun w => transactions_ok w = true)).
    + intros w0 id H0. exact H0.
    + intros w0 H0. apply transactions_ok_tick, H0.
    + exact H.
  - exact H.
  - unfold enable. destruct (_enabled (w_this w)); exact H.
  - unfold disable. destruct (_enabled (w_this w)); exact H.
Qed.

(** X2. The handler never moves the map outside a move transaction:
    whatever happens to the page after the handler is created, every
    [map._move] and every [map._moveEnd] in the log comes after a
    [map._moveStart] with no [map._moveEnd] in between, and while the
    handler holds [_moved] a transaction is open.  (A [_moveStart] may come
    while a transaction is open: a gesture start resets [_moved] without
    closing it.) *)
Theorem moves_stay_within_transactions (map : M) (inputs : list Input) :
  let w := run inputs (freshWorld map) in
  transactions_ok w = true /\
  transaction false (w_log w) <> None /\
  (_moved (w_this w) = true -> transaction false (w_log w) = Some true).
Proof.
  cbv zeta.
  assert (H : transactions_ok (run inputs (freshWorld map)) = true).
  { apply (run_preserves (fun w => transactions_ok w = true)).
    - intros w i Hw. apply transactions_ok_step, Hw.
    - reflexivity. }
  split; [exact H|]. unfold transactions_ok in H.
  destruct (transaction false (w_log (run inputs (freshWorld map)))) as [open|];
    [|discriminate].
  split; [discriminate|].
  intros Em. rewrite Em in H. cbn in H. congruence.
Qed.

End Transactions.

(** ** Pending frame callbacks *)

Section Callbacks.

Context {M : Type} {host : Host M}.

Lemma tick_frames_length (w : World M) :
  (List.length (frames (w_win (_updateWheelZoom w)))
   <= S (List.length (frames (w_win w))))%nat.
Proof.
  rewrite tick_frames. destruct (interfered w || converged w).
  - destruct (_zoomAnimationId (w_this w)) as [id|]; cbn; [|lia].
    pose proof (remove_length_le Nat.eq_dec (frames (w_win w)) id). lia.
  - rewrite length_app. cbn. lia.
Qed.

Lemma callback_frames_length (id : nat) (w : World M) :
  (List.length (frames (w_win (runFrameCallback id w)))
   <= List.length (frames (w_win w)))%nat.
Proof.
  unfold runFrameCallback.
  destruct (frame_pending id (w_win w)) eqn:Ep; [|lia].
  apply frame_pending_In in Ep.
  pose proof (tick_frames_length (cancelAnimationFrame (Some id) w)) as Ht.
  pose proof (remove_length_lt Nat.eq_dec (frames (w_win w)) id Ep) as Hr.
  change (frames (w_win (cancelAnimationFrame (Some id) w)))
    with (remove Nat.eq_dec id (frames (w_win w))) in Ht.
  lia.
Qed.

Lemma animationFrame_frames_length (w : World M) :
  (List.length (frames (w_win (animationFrame w)))
   <= List.length (frames (w_win w)))%nat.
Proof.
  unfold animationFrame.
  remember (frames (w_win w)) as l eqn:El.
  rewrite El at 2. clear El.
  revert w. induction l as [|id l IH]; intros w; cbn; [lia|].
  pose proof (IH (runFrameCallback id w)).
  pose proof (callback_frames_length id w). lia.
Qed.

Lemma wheel_frames (e : WheelEvent) (w : World M) :
  frames (w_win (dispatchWheel e w)) =
    frames (w_win w) ++
    (if starts_gesture w (Wheel e) then [nextHandle (w_win w)] else []).
Proof.
  unfold dispatchWheel, starts_gesture.
  destruct (wheelListener (w_win w)); cbn [andb]; [|rewrite app_nil_r; reflexivity].
  rewrite onWheelScroll_result.
  destruct (_isWheeling (w_this w)); cbn; rewrite ?app_nil_r; reflexivity.
Qed.

Lemma step_frames_length (i : Input) (w : World M) :
  (List.length (frames (w_win (step w i)))
   <= List.length (frames (w_win w)) + (if starts_gesture w i then 1 else 0))%nat.
Proof.
  destruct i as [e|id| |f| |]; cbn [step].
  - rewrite wheel_frames, length_app.
    destruct (starts_gesture w (Wheel e)); cbn; lia.
  - destruct (scene_fireTimer id w) as [_ E]. rewrite E. cbn. lia.
  - pose proof (animationFrame_frames_length w). cbn. lia.
  - cbn. lia.
  - unfold enable. destruct (_enabled (w_this w)); cbn; lia.
  - unfold disable. destruct (_enabled (w_this w)); cbn; lia.
Qed.

(** X3. The handler never has more frame callbacks pending than gestures
    were started: along any run the number of pending callbacks grows by at
    most one per gesture start, and a display refresh never raises it.  A
    gesture start always requests a callback of its own, whatever is
    pending already: it does not cancel or reuse a loop that is still
    running. *)
Theorem callbacks_bounded_by_gesture_starts (inputs : list Input) (w : World M) :
  (List.length (frames (w_win (run inputs w)))
   <= List.length (frames (w_win w)) + gesture_starts inputs w)%nat /\
  (List.length (frames (w_win (animationFrame w)))
   <= List.length (frames (w_win w)))%nat /\
  (forall e, frames (w_win (step w (Wheel e))) =
             frames (w_win w) ++
             (if starts_gesture w (Wheel e) then [nextHandle (w_win w)] else [])).
Proof.
  split; [|split; [apply animationFrame_frames_length | intros e; apply wheel_frames]].
  revert w. unfold run.
  induction inputs as [|i inputs IH]; intros w; cbn [fold_left gesture_starts]; [lia|].
  pose proof (IH (step w i)). pose proof (step_frames_length i w).
  destruct (starts_gesture w i); lia.
Qed.

End Callbacks.

(** ** What only a wheel event changes *)

Section WheelOnly.

Context {M : Type} {host : Host M}.

Lemma animationFrame_keeps_cursor (w : World M) :
  _wheelMousePosition (w_this (animationFrame w)) = _wheelMousePosition (w_this w).
Proof.
  apply (animationFrame_preserves
           (fun w' => _wheelMousePosition (w_this w') = _wheelMousePosition (w_this w))).
  - intros w0 id H0. exact H0.
  - intros w0 H0. destruct (tick_keeps_wheel_state w0) as (_ & _ & _ & _ & E & _).
    rewrite E. exact H0.
  - reflexivity.
Qed.

Lemma step_keeps_goal_and_cursor (i : Input) (w : World M) :
  is_wheel i = false ->
  _goalZoom (w_this (step w i)) = _goalZoom (w_this w) /\
  _wheelMousePosition (w_this (step w i)) = _wheelMousePosition (w_this w).
Proof.
  intros Hi. destruct i as [e|id| |f| |]; cbn [step]; try discriminate.
  - unfold fireTimer. destruct (timer_pending id (w_win w)); split; reflexivity.
  - split; [apply animationFrame_keeps_goal | apply animationFrame_keeps_cursor].
  - split; reflexivity.
  - unfold enable. destruct (_enabled (w_this w)); split; reflexivity.
  - unfold disable. destruct (_enabled (w_this w)); split; reflexivity.
Qed.

(** X4. The goal zoom and the recorded cursor position change only when a
    wheel event arrives: display refreshes, timer expiries, changes of the
    view by other agents, enabling and disabling leave both as they are
    (a view set by someone else does not reset the goal). *)
Theorem only_wheel_events_move_the_goal (inputs : list Input) (w : World M) :
  forallb (fun i => negb (is_wheel i)) inputs = true ->
  _goalZoom (w_this (run inputs w)) = _goalZoom (w_this w) /\
  _wheelMousePosition (w_this (run inputs w)) = _wheelMousePosition (w_this w).
Proof.
  revert w. unfold run.
  induction inputs as [|i inputs IH]; intros w H; cbn; [split; reflexivity|].
  cbn in H. apply andb_prop in H. destruct H as [Hi H].
  apply negb_true_iff in Hi.
  destruct (IH (step w i) H) as [E1 E2].
  destruct (step_keeps_goal_and_cursor i w Hi) as [E3 E4].
  split; congruence.
Qed.

(** X5. The anchors of a gesture (the centre pixel of the view and the
    geographic points under it and under the cursor) stay as captured until
    the next gesture starts: no later wheel event of the gesture, display
    refresh, timer expiry, change of the view by another agent, enabling or
    disabling changes them, even when the view is resized or moved in the
    meantime. *)
Theorem anchors_fixed_until_next_gesture (inputs : list Input) (w : World M) :
  gesture_starts inputs w = O -> anchors (run inputs w) = anchors w.
Proof.
  revert w. unfold run.
  induction inputs as [|i inputs IH]; intros w H; cbn; [reflexivity|].
  cbn [gesture_starts] in H.
  destruct (starts_gesture w i) eqn:Es; [discriminate|].
  rewrite (IH (step w i)) by exact H.
  apply anchors_change_only_at_gesture_start, Es.
Qed.

End WheelOnly.

(** ** Who writes to the view, who suppresses events *)

Section Writers.

Context {M : Type} {host : Host M}.

Lemma tick_suppresses_nothing (w : World M) :
  filter is_suppression (w_log (_updateWheelZoom w)) =
  filter is_suppression (w_log w).
Proof.
  rewrite tick_log, filter_app.
  destruct (interfered w); [apply app_nil_r|].
  destruct (converged w).
  { destruct (_moved (w_this w)); apply app_nil_r. }
  destruct (dead_center w); [apply app_nil_r|].
  unfold commitCalls. destruct (_moved (w_this w)); apply app_nil_r.
Qed.

Lemma animationFrame_suppresses_nothing (w : World M) :
  filter is_suppression (w_log (animationFrame w)) =
  filter is_suppression (w_log w) /\
  wheelListener (w_win (animationFrame w)) = wheelListener (w_win w).
Proof.
  apply (animationFrame_preserves
           (fun w' => filter is_suppression (w_log w') =
                      filter is_suppression (w_log w) /\
                      wheelListener (w_win w') = wheelListener (w_win w))).
  - intros w0 id H0. exact H0.
  - intros w0 [H0 H1]. rewrite tick_suppresses_nothing.
    destruct (tick_keeps_wheel_state w0) as (_ & E & _). rewrite E.
    split; assumption.
  - split; reflexivity.
Qed.

Lemma step_suppressions (i : Input) (w : World M) :
  wheelListener (w_win w) = true -> is_disable i = false ->
  filter is_suppression (w_log (step w i)) =
    filter is_suppression (w_log w) ++ suppressions i /\
  wheelListener (w_win (step w i)) = true.
Proof.
  intros Hl Hi. destruct i as [e|id| |f| |]; cbn [step suppressions];
    try discriminate; rewrite ?app_nil_r.
  - unfold dispatchWheel. rewrite Hl, onWheelScroll_result.
    destruct (_isWheeling (w_this w)); unfold wheeled, gestureStarted; cbn.
    + rewrite filter_app. split; [reflexivity|exact Hl].
    + rewrite !filter_app. cbn.
      destruct (_panAnim (stop (w_map w))); cbn;
        rewrite ?app_nil_r; split; (reflexivity || exact Hl).
  - unfold fireTimer. destruct (timer_pending id (w_win w)); split;
      (reflexivity || exact Hl).
  - destruct (animationFrame_suppresses_nothing w) as [E1 E2].
    rewrite E1, E2. split; [reflexivity|exact Hl].
  - split; [reflexivity|exact Hl].
  - unfold enable. destruct (_enabled (w_this w)); split;
      (reflexivity || exact Hl).
Qed.

(** X6. While the listener stays attached, every wheel event is suppressed
    exactly once, [preventDefault] first and [stopPropagation] next, whether
    it starts a gesture or not and whether or not it changes the goal; no
    display refresh, timer expiry or other input suppresses anything. *)
Theorem every_wheel_event_is_suppressed_once (inputs : list Input) (w : World M) :
  wheelListener (w_win w) = true ->
  forallb (fun i => negb (is_disable i)) inputs = true ->
  filter is_suppression (w_log (run inputs w)) =
    filter is_suppression (w_log w) ++ flat_map suppressions inputs.
Proof.
  revert w. unfold run.
  induction inputs as [|i inputs IH]; intros w Hl H; cbn;
    [rewrite app_nil_r; reflexivity|].
  cbn in H. apply andb_prop in H. destruct H as [Hi H].
  apply negb_true_iff in Hi.
  destruct (step_suppressions i w Hl Hi) as [E1 E2].
  rewrite (IH (step w i) E2 H), E1, app_assoc. reflexivity.
Qed.

Lemma step_writes (i : Input) (w : World M) :
  is_frame i = false -> starts_gesture w i = false ->
  filter is_view_write (w_log (step w i)) = filter is_view_write (w_log w) /\
  (is_external i = false -> w_map (step w i) = w_map w).
Proof.
  intros Hf Hs. destruct i as [e|id| |f| |]; cbn [step]; try discriminate.
  - unfold dispatchWheel. cbn in Hs.
    destruct (wheelListener (w_win w)); [|split; reflexivity].
    cbn in Hs. apply negb_false_iff in Hs.
    rewrite onWheelScroll_result, Hs. unfold wheeled. cbn.
    rewrite filter_app. cbn. rewrite app_nil_r. split; reflexivity.
  - unfold fireTimer. destruct (timer_pending id (w_win w)); split; reflexivity.
  - split; [reflexivity|discriminate].
  - unfold enable. destruct (_enabled (w_this w)); split; reflexivity.
  - unfold disable. destruct (_enabled (w_this w)); split; reflexivity.
Qed.

(** X7. The handler calls the map's mutating methods only from a display
    refresh and at a gesture start: wheel events within a gesture, timer
    expiries, enabling and disabling call none of them, and leave the map
    as it is. *)
Theorem view_written_only_by_frames_and_gesture_starts
    (inputs : list Input) (w : World M) :
  forallb (fun i => negb (is_frame i)) inputs = true ->
  gesture_starts inputs w = O ->
  filter is_view_write (w_log (run inputs w)) = filter is_view_write (w_log w) /\
  (forallb (fun i => negb (is_external i)) inputs = true ->
   w_map (run inputs w) = w_map w).
Proof.
  revert w. unfold run.
  induction inputs as [|i inputs IH]; intros w H Hg; cbn;
    [split; reflexivity|].
  cbn in H. apply andb_prop in H. destruct H as [Hi H].
  apply negb_true_iff in Hi. cbn [gesture_starts] in Hg.
  destruct (starts_gesture w i) eqn:Es; [discriminate|].
  destruct (step_writes i w Hi Es) as [E1 E2].
  destruct (IH (step w i) H Hg) as [E3 E4].
  split; [congruence|].
  intros He. cbn in He. apply andb_prop in He. destruct He as [He1 He2].
  apply negb_true_iff in He1. rewrite (E4 He2). apply E2, He1.
Qed.

End Writers.

(** ** The handler does not interfere with itself *)

Section Snapshots.

Context {M : Type} {host : Host M}.

Lemma snapshot_current_tick (w : World M) :
  moveEnd_keeps_view -> snapshot_current w -> snapshot_current (_updateWheelZoom w).
Proof.
  intros Hend [Hc Hz]. unfold snapshot_current.
  destruct (interfered w) eqn:Hi.
  - rewrite (tick_interfered w Hi).
    destruct (_zoomAnimationId (w_this w)); cbn; auto.
  - destruct (converged w) eqn:Hcv.
    + rewrite (tick_converged w Hi Hcv).
      destruct (_zoomAnimationId (w_this w)), (_moved (w_this w)); cbn; auto;
        destruct (Hend (w_map w) true) as [E1 E2]; rewrite E1, E2; auto.
    + destruct (dead_center w) eqn:Hd.
      * rewrite (tick_dead_center w Hi Hcv Hd). cbn. auto.
      * rewrite (tick_commit w Hi Hcv Hd). cbn. auto.
Qed.

Lemma snapshot_current_step (i : Input) (w : World M) :
  moveEnd_keeps_view -> is_external i = false ->
  snapshot_current w -> snapshot_current (step w i).
Proof.
  intros Hend Hi H. destruct i as [e|id| |f| |]; cbn [step]; try discriminate.
  - unfold dispatchWheel. destruct (wheelListener (w_win w)); [|exact H].
    rewrite onWheelScroll_result.
    destruct (_isWheeling (w_this w)); [exact H|].
    split; reflexivity.
  - unfold fireTimer. destruct (timer_pending id (w_win w)); exact H.
  - apply (animationFrame_preserves snapshot_current).
    + intros w0 id0 H0. exact H0.
    + intros w0 H0. apply snapshot_current_tick; assumption.
    + exact H.
  - unfold enable. destruct (_enabled (w_this w)); exact H.
  - unfold disable. destruct (_enabled (w_this w)); exact H.
Qed.

Lemma snapshot_current_interfered (w : World M) :
  snapshot_current w -> interfered w = self_interfered (w_map w).
Proof.
  intros [Hc Hz]. unfold interfered, self_interfered. rewrite Hc, Hz. reflexivity.
Qed.

(** X9. The handler does not take its own writes for interference.  On a
    map whose [_moveEnd] leaves zoom and centre alone, from a gesture start
    on and as long as no other agent touches the view, the snapshots
    [_prevCenter] and [_prevZoom] are what the map reports, after every wheel
    event, display refresh and timer expiry; so the interference test of a
    frame compares the view with itself, and can only fire when the centre
    does not equal itself or the zoom is not identical to itself (a NaN). *)
Theorem own_writes_are_no_interference
    (e : WheelEvent) (inputs : list Input) (w : World M) :
  moveEnd_keeps_view ->
  starts_gesture w (Wheel e) = true ->
  forallb (fun i => negb (is_external i)) inputs = true ->
  let w' := run inputs (step w (Wheel e)) in
  snapshot_current w' /\
  interfered w' = self_interfered (w_map w') /\
  (LatLng_equals (getCenter (w_map w')) (getCenter (w_map w')) = true ->
   PrimFloat.is_nan (getZoom (w_map w')) = false ->
   interfered w' = false).
Proof.
  intros Hend Hs Hin. cbv zeta.
  assert (H0 : snapshot_current (step w (Wheel e))).
  { cbn [step]. unfold dispatchWheel. cbn in Hs.
    apply andb_prop in Hs. destruct Hs as [Hl Hw].
    apply negb_true_iff in Hw.
    rewrite Hl, onWheelScroll_result, Hw. split; reflexivity. }
  assert (H : snapshot_current (run inputs (step w (Wheel e)))).
  { revert Hin H0. generalize (step w (Wheel e)) as w0. unfold run.
    induction inputs as [|i inputs IH]; intros w0 Hin H0; cbn; [exact H0|].
    cbn in Hin. apply andb_prop in Hin. destruct Hin as [Hi Hin].
    apply negb_true_iff in Hi.
    apply IH; [exact Hin|]. apply snapshot_current_step; assumption. }
  split; [exact H|]. split; [apply snapshot_current_interfered, H|].
  intros Heq Hnan. rewrite (snapshot_current_interfered _ H).
  unfold self_interfered. rewrite Heq. cbn.
  unfold JS.strictNeq.
  rewrite FloatAxioms.eqb_spec. unfold SFeqb.
  rewrite FloatFacts.SFcompare_refl; [reflexivity|].
  apply FloatFacts.is_nan_false_compare, Hnan.
Qed.

End Snapshots.

(** ** Loading the file and adding the handler to a map *)

Section Loading.

Context {M : Type}.

Import Loader.

Lemma no_poll_pending (env : Env) (n : nat) (s : Page M) :
  polls s = [] -> Loader.run env (repeat PollTimer n) s = s.
Proof.
  intros H. unfold Loader.run.
  induction n as [|n IH]; cbn; [reflexivity|]. rewrite H. exact IH.
Qed.

(** A pending poll that finds no class counts up to 100, then is dropped. *)
Lemma poll_countdown (env : Env) (n a : nat) (map : M) (o : AddOptions)
    (lf ad me ip : bool) (hs : list (World M)) :
  (a <= 100)%nat ->
  Loader.run env (repeat PollTimer n) (mkPage lf false ad me ip [mkPoll a map o] hs) =
    mkPage lf false ad me ip
           (if Nat.leb (a + n) 100 then [mkPoll (a + n) map o] else []) hs.
Proof.
  unfold Loader.run. revert a. induction n as [|n IH]; intros a Ha.
  - cbn -[Nat.leb]. rewrite Nat.add_0_r.
    destruct (Nat.leb_spec a 100) as [_|Hgt]; [reflexivity|lia].
  - cbn -[Nat.leb Nat.ltb]. unfold tryAdd. cbn -[Nat.leb Nat.ltb].
    destruct (Nat.ltb_spec a 100) as [Hlt|Hge]; unfold with_polls; cbn [leaflet
      SmoothWheelZoomClass amd_defined module_exports init_pending polls handlers app].
    + rewrite IH by lia. replace (S a + n)%nat with (a + S n)%nat by lia.
      reflexivity.
    + pose proof (no_poll_pending env n (mkPage lf false ad me ip [] hs) eq_refl)
        as E.
      unfold Loader.run in E. rewrite E.
      destruct (Nat.leb_spec (a + S n) 100) as [Hle|_]; [lia|reflexivity].
Qed.

Lemma init_keeps (env : Env) (s : Page M) :
  polls (init env s) = polls s /\ handlers (init env s) = handlers s /\
  (SmoothWheelZoomClass s = true -> SmoothWheelZoomClass (init env s) = true).
Proof.
  unfold init.
  destruct (amd env), (commonjs env), (has_window env), (leaflet s); cbn; auto.
Qed.

Lemma handlers_without_polls (env : Env) (events : list (Event M)) (s : Page M) :
  polls s = [] -> forallb (fun ev => negb (is_addTo ev)) events = true ->
  handlers (Loader.run env events s) = handlers s /\
  polls (Loader.run env events s) = [].
Proof.
  unfold Loader.run. revert s.
  induction events as [|ev events IH]; intros s Hp H; cbn [fold_left]; [auto|].
  cbn in H. apply andb_prop in H. destruct H as [Hev H].
  destruct ev as [ | | |map o]; cbn [Loader.step]; try discriminate.
  - destruct (IH (mkPage true (SmoothWheelZoomClass s) (amd_defined s)
                    (module_exports s) (init_pending s) (polls s) (handlers s))
                 Hp H) as [E1 E2].
    split; [exact E1|exact E2].
  - destruct (init_pending s); [|apply IH; assumption].
    destruct (init_keeps env (mkPage (leaflet s) (SmoothWheelZoomClass s)
                (amd_defined s) (module_exports s) false (polls s) (handlers s)))
      as (Ep & Eh & _).
    cbn in Ep, Eh.
    destruct (IH _ (eq_trans Ep Hp) H) as [E1 E2].
    split; [congruence|exact E2].
  - rewrite Hp. apply IH; assumption.
Qed.

(** X11. [addTo] called before the class exists answers [null] and polls
    every 10 ms; a poll that still finds no class is renewed at most 100
    times.  After the hundredth poll nothing is pending any more, and the
    handler is never added, whatever happens later (Leaflet arriving
    included), unless [addTo] is called again. *)
Theorem addTo_gives_up_after_100_polls
    (env : Env) (map : M) (o : AddOptions) (s : Page M) (n : nat) :
  has_window env = true -> SmoothWheelZoomClass s = false -> polls s = [] ->
  let s' := Loader.run env (repeat PollTimer n) (snd (addTo env map o s)) in
  fst (addTo env map o s) = None /\
  SmoothWheelZoomClass s' = false /\
  handlers s' = handlers s /\
  polls s' = (if Nat.ltb n 100 then [mkPoll (S n) map o] else []) /\
  ((100 <= n)%nat ->
   forall later, forallb (fun ev => negb (is_addTo ev)) later = true ->
     handlers (Loader.run env later s') = handlers s).
Proof.
  intros Hw Hc Hp. destruct s as [lf cls ad me ip ps hs]. cbn in Hc, Hp. subst cls ps.
  assert (Ea : addTo env map o (mkPage lf false ad me ip [] hs) =
               (None, mkPage lf false ad me ip [mkPoll 1 map o] hs))
    by (unfold addTo; rewrite Hw; reflexivity).
  rewrite Ea. cbn [fst snd]. rewrite poll_countdown by lia.
  cbn [SmoothWheelZoomClass handlers polls].
  assert (El : Nat.leb (1 + n) 100 = Nat.ltb n 100) by reflexivity.
  rewrite El.
  split; [reflexivity|]. split; [reflexivity|]. split; [reflexivity|].
  split; [reflexivity|].
  intros Hn later Hl.
  destruct (Nat.ltb_spec n 100) as [Hlt|_]; [lia|].
  apply (handlers_without_polls env later
           (mkPage lf false ad me ip [] hs) eq_refl Hl).
Qed.

(** X12. On a page that loads the file with a script tag while Leaflet is
    not there yet, [addTo] followed by [n] polls, then Leaflet arriving and
    [init] running again: the handler is added at the next poll if [n] is
    below 100, and never if the hundredth poll has passed. *)
Theorem late_addTo_needs_leaflet_within_100_polls
    (map : M) (o : AddOptions) (n : nat) :
  let s := Loader.run browser
             ([AddTo map o] ++ repeat PollTimer n
              ++ [LeafletLoads; InitTimer; PollTimer])
             (boot browser false) in
  SmoothWheelZoomClass s = true /\
  polls s = [] /\
  handlers s = (if Nat.ltb n 100 then [_doAddTo map o] else []).
Proof.
  cbv zeta. unfold Loader.run. rewrite !fold_left_app.
  change (fold_left (Loader.step browser) [AddTo map o] (boot browser false))
    with (mkPage false false false false true [mkPoll 1 map o] []).
  pose proof (poll_countdown browser n 1 map o false false false true []) as E.
  unfold Loader.run in E. rewrite E by lia.
  assert (El : Nat.leb (1 + n) 100 = Nat.ltb n 100) by reflexivity.
  rewrite El.
  destruct (Nat.ltb n 100); repeat apply conj; reflexivity.
Qed.

Lemma module_system_step (env : Env) (ev : Event M) (s : Page M) :
  amd env || commonjs env = true ->
  SmoothWheelZoomClass s = false /\ init_pending s = false /\ handlers s = [] ->
  SmoothWheelZoomClass (Loader.step env s ev) = false /\
  init_pending (Loader.step env s ev) = false /\
  handlers (Loader.step env s ev) = [].
Proof.
  intros He (Hc & Hi & Hh).
  destruct s as [lf cls ad me ip ps hs]. cbn in Hc, Hi, Hh. subst cls ip hs.
  destruct ev as [ | | |map o]; cbn [Loader.step].
  - cbn. auto.
  - cbn. auto.
  - cbn [polls]. destruct ps as [|p ps]; [cbn; auto|].
    unfold tryAdd, with_polls. cbn -[Nat.ltb].
    destruct (Nat.ltb (attempts p) 100); cbn; auto.
  - unfold addTo. destruct (has_window env); cbn -[Nat.ltb]; auto.
Qed.

(** X13. Where the file finds an AMD or a CommonJS module system, [init]
    hands the factory to it and never sets the class the global API tests,
    and it requests no retry: whatever happens on the page afterwards,
    Leaflet being there or not, [window.SmoothWheelZoom.addTo], where it
    exists, answers [null], and no handler is ever added through it. *)
Theorem addTo_never_succeeds_under_a_module_system
    (env : Env) (leaflet_there : bool) (events : list (Event M)) :
  amd env || commonjs env = true ->
  let s := Loader.run env events (boot env leaflet_there) in
  SmoothWheelZoomClass s = false /\ init_pending s = false /\ handlers s = [] /\
  (amd_defined s = amd env /\ module_exports s = negb (amd env)) /\
  forall map o, fst (addTo env map o s) = None.
Proof.
  intros He. cbv zeta.
  assert (H : forall s0 : Page M,
            (SmoothWheelZoomClass s0 = false /\ init_pending s0 = false /\
             handlers s0 = []) /\
            (amd_defined s0 = amd env /\ module_exports s0 = negb (amd env)) ->
            let s := Loader.run env events s0 in
            (SmoothWheelZoomClass s = false /\ init_pending s = false /\
             handlers s = []) /\
            (amd_defined s = amd env /\ module_exports s = negb (amd env))).
  { unfold Loader.run. induction events as [|ev events IH]; intros s0 H0;
      cbn [fold_left]; [exact H0|].
    apply IH. destruct H0 as [H0 [Ha Hm]].
    split; [apply module_system_step; assumption|].
    destruct H0 as (Hc & Hi & Hh).
    destruct s0 as [lf cls ad me ip ps hs]. cbn in Hc, Hi, Hh, Ha, Hm. subst.
    destruct ev as [ | | |map o]; cbn [Loader.step].
    - cbn. auto.
    - cbn. auto.
    - cbn [polls]. destruct ps as [|p ps]; [cbn; auto|].
      unfold tryAdd, with_polls. cbn -[Nat.ltb].
      destruct (Nat.ltb (attempts p) 100); cbn; auto.
    - unfold addTo. destruct (has_window env); cbn -[Nat.ltb]; auto. }
  destruct (H (boot env leaflet_there)) as [(Hc & Hi & Hh) Hd].
  { unfold boot, init.
    destruct (amd env), (commonjs env); cbn in He |- *; try discriminate; auto. }
  split; [exact Hc|]. split; [exact Hi|]. split; [exact Hh|]. split; [exact Hd|].
  intros map o. unfold addTo. rewrite Hc.
  destruct (has_window env); reflexivity.
Qed.

(** X14. On a page that loads the file with a script tag, [init] defines
    the class at once when Leaflet is there; otherwise it asks again every
    10 ms, without any bound, and defines the class at the first retry that
    finds Leaflet, after which no retry is pending.  Once defined the class
    stays, and [addTo] answers at once with a new handler, enabled unless
    the options say [smoothWheelZoom: false]. *)
Theorem init_waits_for_leaflet :
  (SmoothWheelZoomClass (M := M) (boot browser true) = true /\
   init_pending (M := M) (boot browser true) = false) /\
  (forall n : nat,
     Loader.run (M := M) browser (repeat InitTimer n) (boot browser false)
     = mkPage false false false false true [] []) /\
  (forall n : nat,
     let s := Loader.run (M := M) browser
                (repeat InitTimer n ++ [LeafletLoads; InitTimer])
                (boot browser false) in
     SmoothWheelZoomClass s = true /\ init_pending s = false) /\
  (forall (env : Env) (events : list (Event M)) (s : Page M),
     SmoothWheelZoomClass s = true ->
     SmoothWheelZoomClass (Loader.run env events s) = true) /\
  (forall (map : M) (o : AddOptions) (s : Page M),
     SmoothWheelZoomClass s = true ->
     addTo browser map o s =
       (Some (_doAddTo map o), add_handler (_doAddTo map o) s)) /\
  (forall (map : M) (o : AddOptions),
     wheelListener (w_win (_doAddTo map o)) = wants_enabled o /\
     _enabled (w_this (_doAddTo map o)) = wants_enabled o /\
     w_map (_doAddTo map o) = map).
Proof.
  assert (Hn : forall n : nat,
            Loader.run (M := M) browser (repeat InitTimer n) (boot browser false)
            = mkPage false false false false true [] []).
  { unfold Loader.run. induction n as [|n IH]; [reflexivity|exact IH]. }
  split; [split; reflexivity|]. split; [exact Hn|]. split.
  { intros n. cbv zeta. unfold Loader.run. rewrite fold_left_app.
    pose proof (Hn n) as E. unfold Loader.run in E. rewrite E.
    split; reflexivity. }
  split.
  { intros env events. unfold Loader.run.
    induction events as [|ev events IH]; intros s Hc; cbn [fold_left]; [exact Hc|].
    apply IH. destruct ev as [ | | |map o]; cbn [Loader.step].
    - exact Hc.
    - destruct (init_pending s); [|exact Hc].
      apply init_keeps. exact Hc.
    - destruct (polls s) as [|p ps]; [exact Hc|].
      unfold tryAdd, with_polls. cbn. rewrite Hc. reflexivity.
    - unfold addTo. destruct (has_window env); cbn; [|exact Hc].
      rewrite Hc. cbn. exact Hc. }
  split.
  { intros map o s Hc. unfold addTo. cbn. rewrite Hc. reflexivity. }
  intros map o. unfold _doAddTo. destruct (wants_enabled o); repeat apply conj; reflexivity.
Qed.

End Loading.

(** ** A gesture start *)

Section GestureStart.

Context {M : Type} {host : Host M}.

(** X15. A gesture start discards what the previous gesture left: after
    [map.stop()] (and the stop of a pan animation) the goal restarts from
    the zoom the view then has, to which the event's own delta is added;
    [_moved] is reset, the handler is wheeling, and the request of a frame
    is the only change of the pending callbacks.  The goal, the snapshots
    and the anchors the handler held before play no part. *)
Theorem gesture_start_restarts_from_the_view (e : WheelEvent) (w : World M) :
  starts_gesture w (Wheel e) = true ->
  let w' := step w (Wheel e) in
  let view := stoppedMap (w_map w) in
  w_map w' = view /\
  _goalZoom (w_this w') = goalAfter view (getZoom view) e /\
  _startZoom (w_this w') = getZoom (w_map w) /\
  _moved (w_this w') = false /\
  _isWheeling (w_this w') = true /\
  _zoomAnimationId (w_this w') = Some (nextHandle (w_win w)) /\
  filter is_view_write (w_log w') =
    filter is_view_write (w_log w) ++
    Call_stop :: (if _panAnim (stop (w_map w)) then [Call_panAnim_stop] else []).
Proof.
  intros Hs. cbn in Hs. apply andb_prop in Hs. destruct Hs as [Hl Hw].
  apply negb_true_iff in Hw. cbv zeta. cbn [step]. unfold dispatchWheel.
  rewrite Hl, onWheelScroll_result, Hw.
  unfold wheeled, gestureStarted. cbn.
  repeat apply conj; try reflexivity.
  rewrite !filter_app. cbn.
  destruct (_panAnim (stop (w_map w))); cbn; rewrite app_nil_r; reflexivity.
Qed.

End GestureStart.

(** ** The further properties at work on the small host *)

(** A gesture under way at the centre of the view; frames, a timer expiry,
    another agent moving the view and a disabling leave the goal [10.003]. *)
Lemma only_wheel_events_move_the_goal_witness :
  let inputs := [Frame; TimerExpires 2;
                 External (fun m => SimpleMap.move_ m (mkLatLng 1 1) 12);
                 Frame; Disable] in
  forallb (fun i => negb (is_wheel i)) inputs = true /\
  _goalZoom (w_this Scenario.centred) = 10.003 /\
  _goalZoom (w_this (run (host := SimpleMap.plain) inputs Scenario.centred))
    = _goalZoom (w_this Scenario.centred).
Proof.
  cbv zeta. split; [reflexivity|]. split; [vm_compute; reflexivity|].
  exact (proj1 (only_wheel_events_move_the_goal (host := SimpleMap.plain)
                  [Frame; TimerExpires 2;
                   External (fun m => SimpleMap.move_ m (mkLatLng 1 1) 12);
                   Frame; Disable] Scenario.centred eq_refl)).
Defined.

(** Two more notches, frames and a change of the view by another agent
    within the gesture: the anchors are those of the gesture start. *)
Lemma anchors_fixed_until_next_gesture_witness :
  let w := run (host := SimpleMap.plain) [Wheel Scenario.notch] Scenario.start in
  let inputs := [Frame; Wheel Scenario.notch;
                 External (fun m => SimpleMap.move_ m (mkLatLng 1 1) 12);
                 Frame; Wheel Scenario.notch] in
  gesture_starts (host := SimpleMap.plain) inputs w = O /\
  anchors (run (host := SimpleMap.plain) inputs w) = anchors w.
Proof.
  cbv zeta.
  assert (H : gesture_starts (host := SimpleMap.plain)
                [Frame; Wheel Scenario.notch;
                 External (fun m => SimpleMap.move_ m (mkLatLng 1 1) 12);
                 Frame; Wheel Scenario.notch]
                (run (host := SimpleMap.plain) [Wheel Scenario.notch] Scenario.start)
              = O) by (vm_compute; reflexivity).
  split; [exact H|].
  exact (anchors_fixed_until_next_gesture (host := SimpleMap.plain) _ _ H).
Defined.

(** Two wheel events among frames and a timer expiry: two suppressions. *)
Lemma every_wheel_event_is_suppressed_once_witness :
  let inputs := [Wheel Scenario.notch; Frame; Wheel Scenario.notch;
                 TimerExpires 3; Frame] in
  wheelListener (w_win Scenario.start) = true /\
  filter is_suppression
    (w_log (run (host := SimpleMap.plain) inputs Scenario.start))
  = filter is_suppression (w_log Scenario.start)
    ++ [PreventDefault; StopPropagation; PreventDefault; StopPropagation].
Proof.
  cbv zeta. split; [reflexivity|].
  exact (every_wheel_event_is_suppressed_once (host := SimpleMap.plain)
           [Wheel Scenario.notch; Frame; Wheel Scenario.notch;
            TimerExpires 3; Frame] Scenario.start eq_refl eq_refl).
Defined.

(** Within a gesture a notch, the timer expiry, enabling and disabling call
    no method of the map. *)
Lemma view_written_only_by_frames_and_gesture_starts_witness :
  let w := run (host := SimpleMap.plain) [Wheel Scenario.notch] Scenario.start in
  let inputs := [Wheel Scenario.notch; TimerExpires 3; Enable; Disable] in
  gesture_starts (host := SimpleMap.plain) inputs w = O /\
  filter is_view_write (w_log (run (host := SimpleMap.plain) inputs w))
    = filter is_view_write (w_log w) /\
  w_map (run (host := SimpleMap.plain) inputs w) = w_map w.
Proof.
  cbv zeta.
  assert (H : gesture_starts (host := SimpleMap.plain)
                [Wheel Scenario.notch; TimerExpires 3; Enable; Disable]
                (run (host := SimpleMap.plain) [Wheel Scenario.notch] Scenario.start)
              = O) by (vm_compute; reflexivity).
  split; [exact H|].
  destruct (view_written_only_by_frames_and_gesture_starts
              (host := SimpleMap.plain)
              [Wheel Scenario.notch; TimerExpires 3; Enable; Disable]
              (run (host := SimpleMap.plain) [Wheel Scenario.notch] Scenario.start)
              eq_refl H) as [E1 E2].
  split; [exact E1|exact (E2 eq_refl)].
Defined.

(** A gesture on the small host, whose [_moveEnd] leaves the view alone:
    after its frames and the end of the gesture no interference is seen. *)
Lemma own_writes_are_no_interference_witness :
  let inputs := [Frame; Wheel Scenario.notch; Frame; TimerExpires 3; Frame] in
  moveEnd_keeps_view (host := SimpleMap.plain) /\
  starts_gesture Scenario.start (Wheel Scenario.notch) = true /\
  interfered (host := SimpleMap.plain)
    (run (host := SimpleMap.plain) inputs
         (step (host := SimpleMap.plain) Scenario.start (Wheel Scenario.notch)))
  = self_interfered (host := SimpleMap.plain)
      (w_map (run (host := SimpleMap.plain) inputs
                  (step (host := SimpleMap.plain) Scenario.start
                        (Wheel Scenario.notch)))).
Proof.
  cbv zeta.
  assert (Hend : moveEnd_keeps_view (host := SimpleMap.plain))
    by (intros m b; split; reflexivity).
  split; [exact Hend|]. split; [reflexivity|].
  exact (proj1 (proj2 (own_writes_are_no_interference (host := SimpleMap.plain)
                         Scenario.notch
                         [Frame; Wheel Scenario.notch; Frame; TimerExpires 3; Frame]
                         Scenario.start Hend eq_refl eq_refl))).
Defined.

(** [addTo] on a page where Leaflet never arrives: after a hundred polls
    nothing is pending, and Leaflet arriving later adds no handler. *)
Lemma addTo_gives_up_after_100_polls_witness :
  let s := Loader.boot (M := SimpleMap.t) Loader.browser false in
  let s' := Loader.run Loader.browser (repeat Loader.PollTimer 100)
              (snd (Loader.addTo Loader.browser (SimpleMap.at_zoom 10) None s)) in
  Loader.has_window Loader.browser = true /\
  Loader.SmoothWheelZoomClass s = false /\
  Loader.polls s = [] /\
  Loader.polls s' = [] /\
  Loader.handlers
    (Loader.run Loader.browser
       [Loader.LeafletLoads; Loader.InitTimer; Loader.PollTimer] s') = [].
Proof.
  cbv zeta. split; [reflexivity|]. split; [reflexivity|]. split; [reflexivity|].
  destruct (addTo_gives_up_after_100_polls Loader.browser (SimpleMap.at_zoom 10)
              None (Loader.boot (M := SimpleMap.t) Loader.browser false) 100
              eq_refl eq_refl eq_refl) as (_ & _ & _ & Hp & Hlater).
  split; [exact Hp|].
  exact (Hlater (le_n 100)
           [Loader.LeafletLoads; Loader.InitTimer; Loader.PollTimer] eq_refl).
Defined.

(** A CommonJS bundle running in a browser, Leaflet there from the start. *)
Lemma addTo_never_succeeds_under_a_module_system_witness :
  let env := Loader.mkEnv false true true in
  let events := [Loader.AddTo (SimpleMap.at_zoom 10) None; Loader.PollTimer;
                 Loader.LeafletLoads; Loader.InitTimer; Loader.PollTimer] in
  (Loader.amd env || Loader.commonjs env = true) /\
  Loader.handlers (Loader.run env events (Loader.boot env true)) = [] /\
  fst (Loader.addTo env (SimpleMap.at_zoom 10) None
         (Loader.run env events (Loader.boot env true))) = None.
Proof.
  cbv zeta. split; [reflexivity|].
  destruct (addTo_never_succeeds_under_a_module_system
              (Loader.mkEnv false true true) true
              [Loader.AddTo (SimpleMap.at_zoom 10) None; Loader.PollTimer;
               Loader.LeafletLoads; Loader.InitTimer; Loader.PollTimer] eq_refl)
    as (_ & _ & Hh & _ & Ha).
  split; [exact Hh|exact (Ha (SimpleMap.at_zoom 10) None)].
Defined.

(** The first notch on a map at zoom 10: the goal is [10.003]. *)
Lemma gesture_start_restarts_from_the_view_witness :
  let w' := step (host := SimpleMap.plain) Scenario.start (Wheel Scenario.notch) in
  starts_gesture Scenario.start (Wheel Scenario.notch) = true /\
  goalAfter (host := SimpleMap.plain)
    (stoppedMap (host := SimpleMap.plain) (w_map Scenario.start))
    (getZoom (Host := SimpleMap.plain)
       (stoppedMap (host := SimpleMap.plain) (w_map Scenario.start)))
    Scenario.notch = 10.003 /\
  _goalZoom (w_this w') =
    goalAfter (host := SimpleMap.plain)
      (stoppedMap (host := SimpleMap.plain) (w_map Scenario.start))
      (getZoom (Host := SimpleMap.plain)
         (stoppedMap (host := SimpleMap.plain) (w_map Scenario.start)))
      Scenario.notch /\
  _moved (w_this w') = false.
Proof.
  cbv zeta. split; [reflexivity|]. split; [vm_compute; reflexivity|].
  destruct (gesture_start_restarts_from_the_view (host := SimpleMap.plain)
              Scenario.notch Scenario.start eq_refl)
    as (_ & Hg & _ & Hm & _).
  split; [exact Hg|exact Hm].
Defined.

(** ** The [_zooming] flag *)

Section Zooming.

Context {M : Type} {host : Host M}.

Lemma tick_keeps_zooming (w : World M) :
  _zooming (w_this (_updateWheelZoom w)) = _zooming (w_this w).
Proof.
  destruct (interfered w) eqn:Hi.
  - rewrite (tick_interfered w Hi).
    destruct (_zoomAnimationId (w_this w)); reflexivity.
  - destruct (converged w) eqn:Hc.
    + rewrite (tick_converged w Hi Hc).
      destruct (_zoomAnimationId (w_this w)), (_moved (w_this w)); reflexivity.
    + destruct (dead_center w) eqn:Hd.
      * rewrite (tick_dead_center w Hi Hc Hd). reflexivity.
      * rewrite (tick_commit w Hi Hc Hd). reflexivity.
Qed.

Lemma step_zooming (i : Input) (w : World M) :
  _zooming (w_this (step w i)) = _zooming (w_this w) || starts_gesture w i.
Proof.
  destruct i as [e|id| |f| |]; cbn [step starts_gesture]; rewrite ?orb_false_r.
  - unfold dispatchWheel.
    destruct (wheelListener (w_win w)); cbn [andb]; [|rewrite orb_false_r; reflexivity].
    rewrite onWheelScroll_result.
    destruct (_isWheeling (w_this w)); cbn; rewrite ?orb_false_r, ?orb_true_r;
      reflexivity.
  - unfold fireTimer. destruct (timer_pending id (w_win w)); reflexivity.
  - apply (animationFrame_preserves
             (fun w' => _zooming (w_this w') = _zooming (w_this w))).
    + intros w0 id H0. exact H0.
    + intros w0 H0. rewrite tick_keeps_zooming. exact H0.
    + reflexivity.
  - reflexivity.
  - unfold enable. destruct (_enabled (w_this w)); reflexivity.
  - unfold disable. destruct (_enabled (w_this w)); reflexivity.
Qed.

(** X16. [_zooming] is set at every gesture start and cleared by nothing:
    after any run it is true exactly if it was true before or a gesture was
    started on the way, also when the loop has stopped on convergence or on
    interference and when the handler was disabled. *)
Theorem zooming_flag_is_never_cleared (inputs : list Input) (w : World M) :
  _zooming (w_this (run inputs w)) =
    _zooming (w_this w) || Nat.ltb 0 (gesture_starts inputs w).
Proof.
  revert w. unfold run.
  induction inputs as [|i inputs IH]; intros w; cbn [fold_left gesture_starts].
  - cbn. rewrite orb_false_r. reflexivity.
  - rewrite IH, step_zooming, <- orb_assoc. f_equal.
    destruct (starts_gesture w i); reflexivity.
Qed.

End Zooming.

(** ** The sign of the wheel delta *)

Module Signs.

Lemma Prim2SF_eq (a b : float) : Prim2SF a = Prim2SF b -> a = b.
Proof.
  intros E. rewrite <- (SF2Prim_Prim2SF a), <- (SF2Prim_Prim2SF b), E. reflexivity.
Qed.

Lemma round_opp (s : bool) (m e : Z) (l : SpecFloat.location) :
  SFopp (binary_round_aux prec emax s m e l)
  = binary_round_aux prec emax (negb s) m e l.
Proof.
  unfold binary_round_aux.
  destruct (shr_fexp prec emax m e l) as [r1 e1].
  destruct (shr_fexp prec emax _ e1 loc_Exact) as [r2 e2].
  destruct (shr_m r2); [reflexivity| |reflexivity].
  destruct (Z.leb e2 (emax - prec)); reflexivity.
Qed.

Lemma SFmul_opp_l (a b : spec_float) :
  SFmul prec emax (SFopp a) b = SFopp (SFmul prec emax a b).
Proof.
  destruct a as [sa|sa| |sa ma ea], b as [sb|sb| |sb mb eb]; cbn [SFopp SFmul];
    rewrite ?round_opp; try reflexivity; destruct sa, sb; reflexivity.
Qed.

Lemma SFdiv_opp_l (a b : spec_float) :
  SFdiv prec emax (SFopp a) b = SFopp (SFdiv prec emax a b).
Proof.
  destruct a as [sa|sa| |sa ma ea], b as [sb|sb| |sb mb eb]; cbn [SFopp SFdiv];
    try reflexivity; try (destruct sa, sb; reflexivity).
  destruct (SFdiv_core_binary prec emax (Z.pos ma) ea (Z.pos mb) eb) as [[mz ez] lz].
  rewrite round_opp. destruct sa, sb; reflexivity.
Qed.

Lemma mul_opp_l (a b : float) : (- a) * b = - (a * b).
Proof.
  apply Prim2SF_eq.
  rewrite FloatAxioms.mul_spec, !FloatAxioms.opp_spec, FloatAxioms.mul_spec.
  apply SFmul_opp_l.
Qed.

Lemma div_opp_l (a b : float) : (- a) / b = - (a / b).
Proof.
  apply Prim2SF_eq.
  rewrite FloatAxioms.div_spec, !FloatAxioms.opp_spec, FloatAxioms.div_spec.
  apply SFdiv_opp_l.
Qed.

End Signs.

Section WheelDelta.

Context {M : Type} {host : Host M}.

(** X17. The handler's own normalisation of the wheel delta is odd: on a
    host without [L.DomEvent.getWheelDelta], an event with the opposite
    [deltaY] gives exactly the opposite delta, in every [deltaMode] and on
    every platform; so does the amount [delta * 0.003 * smoothSensitivity]
    that is added to the goal. *)
Theorem wheel_delta_is_odd (d : float) (mode cx cy : JS.value) (sens : float) :
  DomEvent_getWheelDelta = None ->
  let up := mkWheelEvent (JS.Num (- d)) mode cx cy in
  let down := mkWheelEvent (JS.Num d) mode cx cy in
  _getWheelDelta up = - _getWheelDelta down /\
  _getWheelDelta up * 0.003 * sens = - (_getWheelDelta down * 0.003 * sens).
Proof.
  intros Hn. cbv zeta.
  assert (E : _getWheelDelta (mkWheelEvent (JS.Num (- d)) mode cx cy)
              = - _getWheelDelta (mkWheelEvent (JS.Num d) mode cx cy)).
  { unfold _getWheelDelta. rewrite Hn. cbn [deltaY deltaMode JS.toNumber].
    destruct (JS.strictEqNum mode 0); [apply Signs.div_opp_l|].
    destruct (JS.strictEqNum mode 1); [apply Signs.mul_opp_l|reflexivity]. }
  split; [exact E|].
  rewrite E, !Signs.mul_opp_l. reflexivity.
Qed.

End WheelDelta.

(** One notch up and one notch down on the small host: [1] and [-1]. *)
Lemma wheel_delta_is_odd_witness :
  DomEvent_getWheelDelta (Host := SimpleMap.plain) = None /\
  _getWheelDelta (host := SimpleMap.plain)
    (mkWheelEvent (JS.Num 40) (JS.Num 0) (JS.Num 500) (JS.Num 300)) = -1 /\
  _getWheelDelta (host := SimpleMap.plain)
    (mkWheelEvent (JS.Num (- 40)) (JS.Num 0) (JS.Num 500) (JS.Num 300))
  = - _getWheelDelta (host := SimpleMap.plain)
        (mkWheelEvent (JS.Num 40) (JS.Num 0) (JS.Num 500) (JS.Num 300)).
Proof.
  split; [reflexivity|]. split; [vm_compute; reflexivity|].
  exact (proj1 (wheel_delta_is_odd (host := SimpleMap.plain) 40 (JS.Num 0)
                  (JS.Num 500) (JS.Num 300) 1 eq_refl)).
Defined.

(** A second gesture started while the loop of the first still runs: two
    callbacks are pending, and both run at every refresh. *)
Example second_gesture_adds_a_loop :
  List.map (fun inputs => frames (w_win (run (host := SimpleMap.plain) inputs
                                             Scenario.start)))
           [[Wheel Scenario.notch; Frame; TimerExpires 2];
            [Wheel Scenario.notch; Frame; TimerExpires 2; Wheel Scenario.notch];
            [Wheel Scenario.notch; Frame; TimerExpires 2; Wheel Scenario.notch;
             Frame]]
    = [[3]; [3; 4]; [6; 7]]%nat.
Proof. vm_compute. reflexivity. Qed.

(** ** Attaching and detaching the listener *)

Section Hooks.

Import Listeners.

Lemma toggles_keep_one_listener (calls : list Toggle) (s : Hooked) :
  attached (registry s) = (if enabled s then [bound (registry s)] else []) ->
  let s' := fold_left toggle calls s in
  attached (registry s') = (if enabled s' then [bound (registry s')] else []).
Proof.
  revert s. induction calls as [|t calls IH]; intros s H; cbn [fold_left];
    [exact H|].
  apply IH. destruct s as [en [f l]]. cbn in H.
  destruct t, en; cbn; subst l; cbn; try reflexivity.
  destruct (Nat.eq_dec f f) as [_|N]; [reflexivity|contradiction].
Qed.

Lemma stale_listener_stays (g : nat) (calls : list Call) (r : Registry) :
  In g (attached r) -> (g < bound r)%nat ->
  In g (attached (fold_left call calls r)).
Proof.
  revert r. induction calls as [|c calls IH]; intros r Hin Hlt; cbn [fold_left];
    [exact Hin|].
  apply IH; destruct c; cbn.
  - apply in_or_app. left. exact Hin.
  - apply in_in_remove; [lia|exact Hin].
  - lia.
  - exact Hlt.
Qed.

End Hooks.

Section HooksAndEvents.

Context {M : Type} {host : Host M}.

(** X8. Through [enable] and [disable], which call [addHooks] only on a
    handler that is not enabled, the container has one wheel listener while
    the handler is enabled and none otherwise, and a wheel event runs
    [_onWheelScroll] once or not at all, as [dispatchWheel] has it.  But
    every call of [addHooks] binds and registers a new function, and
    [removeHooks] unregisters only the one [_onWheelScroll] then is: after
    [addHooks] was called twice in a row, the function of the first call
    stays registered under any later calls of [addHooks] and [removeHooks];
    a wheel event then runs [_onWheelScroll] twice, and once still after
    [removeHooks]. *)
Theorem hooks_alternate_or_leak :
  (forall calls : list Listeners.Toggle,
     let s := fold_left Listeners.toggle calls
                (Listeners.mkHooked false Listeners.initial) in
     Listeners.attached (Listeners.registry s) =
       (if Listeners.enabled s then [Listeners.bound (Listeners.registry s)]
        else []) /\
     forall (e : WheelEvent) (w : World M),
       wheelListener (w_win w) = Listeners.enabled s ->
       Listeners.dispatchWheel e (Listeners.registry s) w = dispatchWheel e w) /\
  (forall (r : Listeners.Registry) (calls : list Listeners.Call),
     In (S (Listeners.bound r))
        (Listeners.attached
           (fold_left Listeners.call calls
              (Listeners.addHooks (Listeners.addHooks r))))) /\
  (forall (e : WheelEvent) (w : World M),
     let once := Listeners.addHooks Listeners.initial in
     let twice := Listeners.addHooks once in
     Listeners.dispatchWheel e twice w = _onWheelScroll e (_onWheelScroll e w) /\
     Listeners.dispatchWheel e (Listeners.removeHooks twice) w
       = _onWheelScroll e w /\
     Listeners.dispatchWheel e (Listeners.removeHooks once) w = w).
Proof.
  split; [|split].
  - intros calls. cbv zeta.
    pose proof (toggles_keep_one_listener calls
                  (Listeners.mkHooked false Listeners.initial) eq_refl) as H.
    cbv zeta in H. split; [exact H|].
    intros e w Hl. unfold Listeners.dispatchWheel, dispatchWheel.
    rewrite H, Hl.
    destruct (Listeners.enabled
                (fold_left Listeners.toggle calls
                   (Listeners.mkHooked false Listeners.initial)));
      reflexivity.
  - intros r calls. apply stale_listener_stays; cbn.
    + apply in_or_app. left. apply in_or_app. right. left. reflexivity.
    + lia.
  - intros e w. cbv zeta. repeat apply conj; reflexivity.
Qed.

End HooksAndEvents.
